(** * bigquery-flash-data-sync: schema inference, table reconciliation,
      row parsing and the extract-and-load cycle

    A shallow embedding of the Go packages [internal/model] and
    [internal/pipeline].  Go strings are byte strings ([string]), Go
    [error] values are represented by their message, a nil error is
    [None].  Calls on the zap logger do not influence any result or any
    call on the destination and are left out. *)

From Stdlib Require Import ZArith Lia Ascii.
From stdpp Require Import base option list strings pretty gmap.

(** ** Go values shared by both packages *)

(** [err.Error()]: an error is observed by the program only through its
    message ([strings.Contains(err.Error(), ...)]) and through wrapping. *)
Definition error : Type := string.

(** [fmt.Errorf("<prefix>: %w", err)]. *)
Definition Errorf (prefix : string) (err : error) : error :=
  prefix +:+ ": " +:+ err.

(** A Go result pair [(v, err)] with exactly one side meaningful. *)
Inductive result (A : Type) : Type :=
| Ok (v : A)
| Err (e : error).
Arguments Ok {A} v.
Arguments Err {A} e.

(** [time.Time] is the library's struct of a wall clock reading, a
    monotonic extension and a location. *)
Record Time : Type := mkTime { wall : Z; ext : Z; loc : string }.

(** The dynamic values ([any]) that [database/sql] hands to the program:
    the driver value types and the untyped nil. *)
Inductive any : Type :=
| AnyNil
| AnyBytes (v : list Byte.byte)
| AnyTime (v : Time)
| AnyInt64 (v : Z)
| AnyFloat64 (bits : Z)
| AnyBool (v : bool)
| AnyString (v : string).

(** Functions of the Go standard library that the program calls and whose
    code is outside the repository. *)
Class GoLibs : Type := {
  (** [strings.ToUpper] on a string with a byte >= 0x80 (it maps runes). *)
  unicode_ToUpper : string → string;
  (** [time.Time.Format]. *)
  time_Format : Time → string → string;
  (** [json.Marshal] of a [map[string]any]. *)
  json_Marshal : gmap string any → result string
}.

(** ** package strings *)

Module strings.

Definition byte_lt (c : ascii) (n : N) : bool := (Ascii.N_of_ascii c <? n)%N.

Definition isASCII (s : string) : bool :=
  forallb (fun c => byte_lt c 128) (String.list_ascii_of_string s).

Definition upper_byte (c : ascii) : ascii :=
  let n := Ascii.N_of_ascii c in
  if ((97 <=? n) && (n <=? 122))%N then Ascii.ascii_of_N (n - 32) else c.

Fixpoint map_bytes (f : ascii → ascii) (s : string) : string :=
  match s with
  | EmptyString => EmptyString
  | String c s' => String (f c) (map_bytes f s')
  end.

(** [strings.ToUpper]: bytes are mapped one by one when the string is
    pure ASCII, runes are mapped otherwise. *)
Definition ToUpper {libs : GoLibs} (s : string) : string :=
  if isASCII s then map_bytes upper_byte s else unicode_ToUpper s.

(** [strings.Split(s, sep)] for a one-byte separator. *)
Fixpoint Split (s : string) (sep : ascii) : list string :=
  match s with
  | EmptyString => [EmptyString]
  | String c s' =>
      if Ascii.eqb c sep then EmptyString :: Split s' sep
      else match Split s' sep with
           | piece :: pieces => String c piece :: pieces
           | [] => [String c EmptyString]
           end
  end.

Fixpoint HasPrefix (s prefix : string) : bool :=
  match prefix, s with
  | EmptyString, _ => true
  | String _ _, EmptyString => false
  | String p prefix', String c s' => Ascii.eqb c p && HasPrefix s' prefix'
  end.

(** [strings.Contains(s, substr)]. *)
Fixpoint Contains (s substr : string) : bool :=
  HasPrefix s substr ||
  match s with
  | EmptyString => false
  | String _ s' => Contains s' substr
  end.

End strings.

(** ** package bigquery: schemas *)

(** [bigquery.FieldType] is a string type. *)
Definition FieldType : Type := string.
Definition StringFieldType : FieldType := "STRING".
Definition IntegerFieldType : FieldType := "INTEGER".
Definition FloatFieldType : FieldType := "FLOAT".
Definition DateFieldType : FieldType := "DATE".
Definition TimestampFieldType : FieldType := "TIMESTAMP".
Definition BooleanFieldType : FieldType := "BOOLEAN".

Record FieldSchema : Type := mkField {
  Name : string;
  Type_ : FieldType;
  Required : bool
}.

(** [type Schema []*FieldSchema]. *)
Abbreviation Schema := (list FieldSchema).

(** ** pipeline/bqsetup.go: type mapping *)

(** A [case] with several labels. *)
Definition case_of (t : string) (labels : list string) : bool :=
  existsb (String.eqb t) labels.

(** The switch subject [strings.ToUpper(strings.Split(mysqlType, "(")[0])]. *)
Definition switchSubject {libs : GoLibs} (mysqlType : string) : string :=
  strings.ToUpper
    match strings.Split mysqlType "("%char with
    | piece :: _ => piece
    | [] => EmptyString
    end.

Definition mysqlTypeToBigQueryType {libs : GoLibs} (mysqlType : string) : FieldType :=
  let t := switchSubject mysqlType in
  if case_of t ["VARCHAR"; "CHAR"; "TEXT"; "TINYTEXT"; "MEDIUMTEXT"; "LONGTEXT"]
  then StringFieldType
  else if case_of t ["INT"; "TINYINT"; "SMALLINT"; "MEDIUMINT"; "BIGINT"]
  then IntegerFieldType
  else if case_of t ["FLOAT"; "DOUBLE"; "DECIMAL"]
  then FloatFieldType
  else if case_of t ["DATE"]
  then DateFieldType
  else if case_of t ["DATETIME"; "TIMESTAMP"]
  then TimestampFieldType
  else if case_of t ["BOOLEAN"; "BOOL"]
  then BooleanFieldType
  else StringFieldType.

(** The documented lookup table: native type name to semantic type. *)
Definition documentedTypes : list (string * FieldType) :=
  [ ("VARCHAR", "STRING"); ("CHAR", "STRING"); ("TEXT", "STRING");
    ("TINYTEXT", "STRING"); ("MEDIUMTEXT", "STRING"); ("LONGTEXT", "STRING");
    ("INT", "INTEGER"); ("TINYINT", "INTEGER"); ("SMALLINT", "INTEGER");
    ("MEDIUMINT", "INTEGER"); ("BIGINT", "INTEGER");
    ("FLOAT", "FLOAT"); ("DOUBLE", "FLOAT"); ("DECIMAL", "FLOAT");
    ("DATE", "DATE");
    ("DATETIME", "TIMESTAMP"); ("TIMESTAMP", "TIMESTAMP");
    ("BOOLEAN", "BOOLEAN"); ("BOOL", "BOOLEAN") ].

Definition semanticTypes : list FieldType :=
  [StringFieldType; IntegerFieldType; FloatFieldType;
   DateFieldType; TimestampFieldType; BooleanFieldType].

(** [s] spells [name] up to the case of its ASCII letters. *)
Definition spells (s name : string) : Prop :=
  strings.map_bytes strings.upper_byte s = name.

(** ** package database/sql *)

(** [sql.ColumnType]; [Nullable] is the pair [(nullable, ok)]. *)
Record ColumnType : Type := mkColumnType {
  ct_Name : string;
  DatabaseTypeName : string;
  Nullable : bool * bool
}.

(** A row as the driver delivered it: its values, and the error that a
    [Scan] of it meets first, if any (closed rows, cancelled context). *)
Record DriverRow : Type := mkDriverRow {
  lastcols : list any;
  scanErr : option error
}.

(** [*sql.Rows]: the column metadata of the result set, the rows for which
    [Next] reports true, in order, and the value of [Err] once [Next] has
    reported false. *)
Record Rows : Type := mkRows {
  Columns : result (list string);
  ColumnTypes : result (list ColumnType);
  delivered : list DriverRow;
  rowsErr : option error
}.

(** [*sql.DB]: what a query answers. *)
Record DB : Type := mkDB {
  db_Query : string → result Rows;
  db_QueryContext : string → result Rows
}.

(** [rows.Scan(dest...)] into [ndest] destinations of type [*any]: the
    pending error first, then the arity check, then plain assignment. *)
Definition Scan (cur : DriverRow) (ndest : nat) : result (list any) :=
  match scanErr cur with
  | Some e => Err e
  | None =>
      if decide (length (lastcols cur) = ndest) then Ok (lastcols cur)
      else Err ("sql: expected " +:+ pretty (length (lastcols cur)) +:+
                " destination arguments in Scan, not " +:+ pretty ndest)
  end.

(** ** model/models.go *)

(** [type Savable interface { ToSaveable() map[string]any }]; [None] is a
    run-time panic of the method. *)
Class Savable (A : Type) : Type :=
  ToSaveable : A → option (gmap string any).

Record BQTable : Type := mkBQTable {
  bt_Name : string;
  bt_Schema : Schema
}.

Record DynamicRow : Type := mkDynamicRow {
  ColumnNames : list string;
  Values : list any
}.

Record DataSource : Type := mkDataSource {
  ds_Name : string;
  DSN : string;
  DBName : string;
  SourceTables : list string
}.

Record Job (R : Type) : Type := mkJob {
  job_Name : string;
  ConnectionString : string;
  job_Query : string;
  BigQueryTable : string;
  ParseFunc : Rows → DriverRow → result R
}.
Arguments mkJob {R}.
Arguments job_Name {R}.
Arguments ConnectionString {R}.
Arguments job_Query {R}.
Arguments BigQueryTable {R}.
Arguments ParseFunc {R}.

(** The fields of [Config] that the pipeline reads. *)
Record Config : Type := mkConfig {
  GCPProjectID : string;
  BigQueryDatasetID : string;
  DateFormat : string
}.

(** [mapS1[field.Name] = field.Type] for every field of [s1]. *)
Definition typesByName (s1 : Schema) : gmap string FieldType :=
  foldl (fun mapS1 field => <[Name field := Type_ field]> mapS1) ∅ s1.

(** The second loop of [SchemasMatch]: the list of mismatches. *)
Definition mismatchesAgainst (mapS1 : gmap string FieldType) (s2 : Schema)
  : list string :=
  foldl (fun mismatches field =>
           match mapS1 !! Name field with
           | None => mismatches ++ ["missing:" +:+ Name field]
           | Some t =>
               if negb (String.eqb t (Type_ field))
               then mismatches ++ ["type:" +:+ Name field]
               else mismatches
           end) [] s2.

Definition SchemasMatch (s1 s2 : Schema) : bool :=
  if negb (length s1 =? length s2) then false
  else
    let mapS1 := typesByName s1 in
    let mismatches := mismatchesAgainst mapS1 s2 in
    if 0 <? length mismatches then false else true.

(** [for i, colName := range r.ColumnNames { result[colName] = r.Values[i] }];
    an index beyond [r.Values] panics. *)
Fixpoint ToSaveable_from (i : nat) (names : list string) (values : list any)
    (acc : gmap string any) : option (gmap string any) :=
  match names with
  | [] => Some acc
  | colName :: names' =>
      match values !! i with
      | Some v => ToSaveable_from (S i) names' values (<[colName := v]> acc)
      | None => None
      end
  end.

#[export] Instance DynamicRow_Savable : Savable DynamicRow :=
  fun r => ToSaveable_from 0 (ColumnNames r) (Values r) ∅.

(** ** model/parser.go *)

Definition convertValueToInterface {libs : GoLibs} (rawValue : any)
    (dateFormat : string) : any :=
  match rawValue with
  | AnyNil => AnyNil
  | AnyBytes v => AnyString (String.string_of_list_byte v)
  | AnyTime v => AnyString (time_Format v dateFormat)
  | v => v
  end.

(** [for i, rawValue := range values { dst[i] = convert(rawValue) }]. *)
Fixpoint convertInto {libs : GoLibs} (i : nat) (values : list any) (dateFormat : string)
    (dst : list any) : list any :=
  match values with
  | [] => dst
  | rawValue :: values' =>
      convertInto (S i) values' dateFormat
        (<[i := convertValueToInterface rawValue dateFormat]> dst)
  end.

Definition ParseDynamicRow {libs : GoLibs} (rows : Rows) (cur : DriverRow)
    (dateFormat : string) : result DynamicRow :=
  match Columns rows with
  | Err err => Err (Errorf "failed to get columns" err)
  | Ok columns =>
      match Scan cur (length columns) with
      | Err err => Err (Errorf "failed to scan row" err)
      | Ok values =>
          Ok {| ColumnNames := columns;
                Values := convertInto 0 values dateFormat
                            (replicate (length columns) AnyNil) |}
      end
  end.

(** ** pipeline/bqsetup.go: schema inference *)

Definition fieldOf {libs : GoLibs} (col : ColumnType) : FieldSchema :=
  let bqType := mysqlTypeToBigQueryType (DatabaseTypeName col) in
  let '(nullable, ok) := Nullable col in
  {| Name := ct_Name col; Type_ := bqType; Required := ok && negb nullable |}.

Definition InferSchemaFromMySQL {libs : GoLibs} (db : DB) (query : string)
  : result Schema :=
  match db_Query db query with
  | Err err => Err (Errorf "schema inference query failed" err)
  | Ok rows =>
      match ColumnTypes rows with
      | Err err => Err (Errorf "failed to get column types for inference" err)
      | Ok columnTypes =>
          Ok (foldl (fun schema col => schema ++ [fieldOf col]) [] columnTypes)
      end
  end.

(** ** package bigquery: the client *)

Record TableMetadata : Type := mkTableMetadata {
  tm_Name : string;
  tm_Schema : Schema;
  ETag : string
}.

Record BQJob : Type := mkBQJob { JobID : string }.

(** [*bigquery.JobStatus] with its accessor [Err()]. *)
Record JobStatus : Type := mkJobStatus { status_Err : option error }.

Inductive WriteDisposition : Type := WriteAppend | WriteTruncate | WriteEmpty.
Inductive SourceFormat : Type := CSV | JSON.

(** The requests the program sends to the destination. *)
Inductive BQCall : Type :=
| CallMetadata (dataset table : string)
| CallCreate (dataset table : string) (tm : TableMetadata)
| CallUpdate (dataset table : string) (schema : Schema) (etag : string)
| CallDelete (dataset table : string)
| CallLoaderRun (dataset table : string) (payload : string)
    (format : SourceFormat) (disposition : WriteDisposition)
| CallWait (job : BQJob).

(** [*bigquery.Client] over a destination whose state has type [D]: every
    request answers and may change the destination. *)
Record Client (D : Type) : Type := mkClient {
  bq_Metadata : string → string → D → result TableMetadata * D;
  bq_Create : string → string → TableMetadata → D → option error * D;
  bq_Update : string → string → Schema → string → D → result TableMetadata * D;
  bq_Delete : string → string → D → option error * D;
  bq_LoaderRun : string → string → string → SourceFormat → WriteDisposition →
                 D → result BQJob * D;
  bq_Wait : BQJob → D → result JobStatus * D
}.
Arguments bq_Metadata {D}.
Arguments bq_Create {D}.
Arguments bq_Update {D}.
Arguments bq_Delete {D}.
Arguments bq_LoaderRun {D}.
Arguments bq_Wait {D}.

(** The state a task threads through its requests: the destination and the
    requests sent so far, oldest first. *)
Record World (D : Type) : Type := mkWorld {
  dest : D;
  sent : list BQCall
}.
Arguments mkWorld {D}.
Arguments dest {D}.
Arguments sent {D}.

Definition M (D A : Type) : Type := World D → A * World D.

Definition ret {D A} (a : A) : M D A := fun w => (a, w).

Definition bind {D A B} (m : M D A) (k : A → M D B) : M D B :=
  fun w => let '(a, w') := m w in k a w'.

Notation "'let*' x := m 'in' k" := (bind m (fun x => k))
  (at level 10, x name, m at level 100, k at level 200).

(** One request: run it on the destination and record it. *)
Definition request {D A} (c : BQCall) (run : D → A * D) : M D A :=
  fun w => let '(a, d') := run (dest w) in (a, mkWorld d' (sent w ++ [c])).

Section Pipeline.
Context {D : Type} (client : Client D).

Definition Metadata (dataset table : string) : M D (result TableMetadata) :=
  request (CallMetadata dataset table) (bq_Metadata client dataset table).

Definition Create (dataset table : string) (tm : TableMetadata)
  : M D (option error) :=
  request (CallCreate dataset table tm) (bq_Create client dataset table tm).

Definition Update (dataset table : string) (schema : Schema) (etag : string)
  : M D (result TableMetadata) :=
  request (CallUpdate dataset table schema etag)
          (bq_Update client dataset table schema etag).

Definition Delete (dataset table : string) : M D (option error) :=
  request (CallDelete dataset table) (bq_Delete client dataset table).

Definition LoaderRun (dataset table payload : string) (format : SourceFormat)
    (disposition : WriteDisposition) : M D (result BQJob) :=
  request (CallLoaderRun dataset table payload format disposition)
          (bq_LoaderRun client dataset table payload format disposition).

Definition Wait (job : BQJob) : M D (result JobStatus) :=
  request (CallWait job) (bq_Wait client job).

(** *** pipeline/bqsetup.go: reconciliation *)

Definition isCriticalError (updateErr : error) : bool :=
  (strings.Contains updateErr "changed type" ||
   strings.Contains updateErr "is missing") &&
  strings.Contains updateErr "invalid".

(** The recreate branch: delete the table, then create it afresh. *)
Definition recreateTable (datasetID : string) (table : BQTable)
  : M D (option error) :=
  let* delErr := Delete datasetID (bt_Name table) in
  match delErr with
  | Some delErr =>
      ret (Some (Errorf "failed to delete table with bad schema" delErr))
  | None =>
      let* createErr :=
        Create datasetID (bt_Name table)
               (mkTableMetadata (bt_Name table) (bt_Schema table) "") in
      match createErr with
      | Some createErr =>
          ret (Some (Errorf "failed to recreate table with correct schema" createErr))
      | None => ret None
      end
  end.

Definition createOrUpdateTable (datasetID : string) (table : BQTable)
  : M D (option error) :=
  let* r := Metadata datasetID (bt_Name table) in
  match r with
  | Err err =>
      if strings.Contains err "Not found" then
        let* err :=
          Create datasetID (bt_Name table)
                 (mkTableMetadata (bt_Name table) (bt_Schema table) "") in
        match err with
        | Some err => ret (Some (Errorf "failed to create table" err))
        | None => ret None
        end
      else ret (Some (Errorf "failed to get table metadata" err))
  | Ok metadata =>
      if negb (SchemasMatch (tm_Schema metadata) (bt_Schema table)) then
        let* u := Update datasetID (bt_Name table) (bt_Schema table)
                         (ETag metadata) in
        match u with
        | Err updateErr =>
            if isCriticalError updateErr then recreateTable datasetID table
            else ret (Some (Errorf "failed to update table schema" updateErr))
        | Ok _ => ret None
        end
      else ret None
  end.

(** *** pipeline/job.go: the extract-and-load cycle *)

(** Go's [int] (64 bits): the value of [z] after wrap-around. *)
Definition int_wrap (z : Z) : Z := ((z + 2 ^ 63) mod 2 ^ 64 - 2 ^ 63)%Z.

(** [x++]. *)
Definition incr (x : Z) : Z := int_wrap (x + 1).

(** The local variables of the extraction loop. *)
Record LoopState : Type := mkLoopState {
  buf : string;
  totalRowsExtracted : Z;
  rowNum : Z;
  skippedRows : Z
}.

(** How the loop is left: by running out of rows, by [return err], or by
    a panic of [ToSaveable]. *)
Inductive LoopExit : Type :=
| LoopDone (st : LoopState)
| LoopReturn (err : error)
| LoopPanic.

(** What a function returning [error] does: return, or panic. *)
Inductive Outcome : Type :=
| Returned (err : option error)
| Panicked.

(** [encoder.Encode(v)]: the JSON text of [v] followed by a newline. *)
Definition Encode {libs : GoLibs} (v : gmap string any) : result string :=
  match json_Marshal v with
  | Ok text => Ok (text +:+ String "010"%char EmptyString)
  | Err err => Err err
  end.

Definition extractionStart : LoopState := mkLoopState EmptyString 0 0 0.

(** [for rows.Next() { ... }] over the rows still to come. *)
Fixpoint extractRows {libs : GoLibs} {R} {savable : Savable R} (job : Job R)
    (rows : Rows) (pending : list DriverRow) (st : LoopState) : LoopExit :=
  match pending with
  | [] => LoopDone st
  | cur :: pending' =>
      let rowNum' := incr (rowNum st) in
      match ParseFunc job rows cur with
      | Err _ =>
          extractRows job rows pending'
            (mkLoopState (buf st) (totalRowsExtracted st) rowNum'
                          (incr (skippedRows st)))
      | Ok row =>
          match ToSaveable row with
          | None => LoopPanic
          | Some record =>
              match Encode record with
              | Err err =>
                  LoopReturn (Errorf "failed to write row to memory buffer" err)
              | Ok line =>
                  extractRows job rows pending'
                    (mkLoopState (buf st +:+ line)
                                  (incr (totalRowsExtracted st)) rowNum'
                                  (skippedRows st))
              end
          end
      end
  end.

(** The tail of [executeJob]: the bulk load of the buffer. *)
Definition loadBuffer {R} (datasetID : string) (job : Job R) (payload : string)
  : M D (option error) :=
  let* r := LoaderRun datasetID (BigQueryTable job) payload JSON WriteTruncate in
  match r with
  | Err err => ret (Some (Errorf "failed to create BigQuery load job" err))
  | Ok bqJob =>
      let* w := Wait bqJob in
      match w with
      | Err err =>
          ret (Some (Errorf "failed to wait for BigQuery job to complete" err))
      | Ok status =>
          match status_Err status with
          | Some err => ret (Some (Errorf "BigQuery load job failed" err))
          | None => ret None
          end
      end
  end.

Definition executeJob {libs : GoLibs} {R} {savable : Savable R}
    (datasetID : string) (job : Job R) (db : option DB) : M D Outcome :=
  match db with
  | None => ret (Returned (Some "database connection is nil"))
  | Some db =>
      match db_QueryContext db (job_Query job) with
      | Err err => ret (Returned (Some (Errorf "failed to query database" err)))
      | Ok rows =>
          match extractRows job rows (delivered rows) extractionStart with
          | LoopPanic => ret Panicked
          | LoopReturn err => ret (Returned (Some err))
          | LoopDone st =>
              match rowsErr rows with
              | Some err =>
                  ret (Returned (Some (Errorf "error during row iteration" err)))
              | None =>
                  if (totalRowsExtracted st =? 0)%Z then ret (Returned None)
                  else
                    let* err := loadBuffer datasetID job (buf st) in
                    ret (Returned err)
              end
          end
      end
  end.

(** The [model.Job] literal that [runTableJob] builds. *)
Definition tableJob {libs : GoLibs} (cfg : Config) (source : DataSource)
    (table sourceQuery : string) : Job DynamicRow :=
  mkJob table (DSN source) sourceQuery table
    (fun rows cur => ParseDynamicRow rows cur (DateFormat cfg)).

(** [runTableJob]; [sql_Open] is [sql.Open("mysql", dsn)]. *)
Definition runTableJob {libs : GoLibs} (sql_Open : string → result DB)
    (cfg : Config) (source : DataSource) (table : string) : M D Outcome :=
  let sourceQuery := "SELECT * FROM " +:+ DBName source +:+ "." +:+ table in
  let dummyQuery := sourceQuery +:+ " LIMIT 1" in
  match sql_Open (DSN source) with
  | Err err =>
      ret (Returned (Some (Errorf
             "failed to open DB connection for schema inference" err)))
  | Ok db =>
      match InferSchemaFromMySQL db dummyQuery with
      | Err err => ret (Returned (Some (Errorf "failed to infer schema" err)))
      | Ok inferredSchema =>
          let bqTable := mkBQTable table inferredSchema in
          let* err := createOrUpdateTable (BigQueryDatasetID cfg) bqTable in
          match err with
          | Some err =>
              ret (Returned (Some (Errorf
                     "failed to create/update BigQuery table" err)))
          | None =>
              let job := tableJob cfg source table sourceQuery in
              let* o := executeJob (BigQueryDatasetID cfg) job (Some db) in
              match o with
              | Panicked => ret Panicked
              | Returned (Some err) =>
                  ret (Returned (Some (Errorf "job execution failed" err)))
              | Returned None => ret (Returned None)
              end
          end
      end
  end.

End Pipeline.

(** ** Notions used to state the properties *)

Definition is_upper_letter (c : ascii) : bool :=
  let n := Ascii.N_of_ascii c in ((65 <=? n) && (n <=? 90))%N.

Fixpoint all_bytes (p : ascii → bool) (s : string) : bool :=
  match s with
  | EmptyString => true
  | String c s' => p c && all_bytes p s'
  end.

#[export] Instance FieldSchema_eq_dec : EqDecision FieldSchema.
Proof. solve_decision. Defined.

(** The invariant of the data model: column names are unique within a
    schema. *)
Definition uniqueNames (s : Schema) : Prop := NoDup (Name <$> s).

(** The (name, type) pairs of a schema, in field order. *)
Definition nameTypePairs (s : Schema) : list (string * FieldType) :=
  (fun field => (Name field, Type_ field)) <$> s.

(** The values that pass through conversion unchanged: neither nil, nor
    bytes, nor a time. *)
Definition passesThrough (v : any) : bool :=
  match v with
  | AnyNil | AnyBytes _ | AnyTime _ => false
  | _ => true
  end.

(** What one iteration of the extraction loop does with a row. *)
Inductive RowFate : Type :=
| RowSkipped
| RowBuffered (line : string)
| RowEncodeFails (err : error)
| RowPanics.

Definition rowFate {libs : GoLibs} {R} {savable : Savable R} (job : Job R)
    (rows : Rows) (cur : DriverRow) : RowFate :=
  match ParseFunc job rows cur with
  | Err _ => RowSkipped
  | Ok row =>
      match ToSaveable row with
      | None => RowPanics
      | Some record =>
          match Encode record with
          | Err err => RowEncodeFails err
          | Ok line => RowBuffered line
          end
      end
  end.

(** The row neither aborts the task nor panics. *)
Definition survives (f : RowFate) : Prop :=
  match f with
  | RowSkipped | RowBuffered _ => True
  | _ => False
  end.

Definition isBuffered (f : RowFate) : Prop :=
  match f with RowBuffered _ => True | _ => False end.

(** The lines of the rows that get buffered, in row order. *)
Definition bufferedLines {libs : GoLibs} {R} {savable : Savable R}
    (job : Job R) (rows : Rows) (pending : list DriverRow) : list string :=
  omap (fun cur => match rowFate job rows cur with
                   | RowBuffered line => Some line
                   | _ => None
                   end) pending.

(** The number of rows that fail to parse. *)
Definition parseFailures {libs : GoLibs} {R} {savable : Savable R}
    (job : Job R) (rows : Rows) (pending : list DriverRow) : nat :=
  length (List.filter
            (fun cur => match rowFate job rows cur with
                        | RowSkipped => true
                        | _ => false
                        end) pending).

Definition joinLines (lines : list string) : string :=
  foldr String.append EmptyString lines.

(** ** Sample data on which the model is run *)

(** The bit pattern of a quiet NaN. *)
Definition nanBits : Z := 9221120237041090560.

Definition isNaN (v : any) : bool :=
  match v with
  | AnyFloat64 bits => (bits =? nanBits)%Z
  | _ => false
  end.

(** A stand-in for [json.Marshal] that, like it, rejects NaN; its text is
    only the list of keys. *)
Definition sampleMarshal (m : gmap string any) : result string :=
  if existsb isNaN (map_to_list m).*2
  then Err "json: unsupported value: NaN"
  else Ok ("{" +:+ foldr (fun kv acc => kv.1 +:+ ";" +:+ acc) "}" (map_to_list m)).

Definition sampleLibs : GoLibs :=
  {| unicode_ToUpper := fun s => s;
     time_Format := fun t layout => layout;
     json_Marshal := sampleMarshal |}.

(** The table of the end-to-end scenario:
    (id INT, name VARCHAR(50), created_at DATETIME, is_active BOOLEAN). *)
Definition sampleColumnTypes : list ColumnType :=
  [ mkColumnType "id" "INT" (false, true);
    mkColumnType "name" "VARCHAR(50)" (true, true);
    mkColumnType "created_at" "DATETIME" (false, false);
    mkColumnType "is_active" "BOOLEAN" (true, true) ].

Definition sampleColumns : list string :=
  ["id"; "name"; "created_at"; "is_active"].

Definition sampleRow (id : Z) : DriverRow :=
  mkDriverRow [AnyInt64 id; AnyNil; AnyTime (mkTime 0 0 "UTC"); AnyInt64 1] None.

Definition brokenRow : DriverRow :=
  mkDriverRow [] (Some "sql: Rows are closed").

Definition nanRow : DriverRow :=
  mkDriverRow [AnyInt64 7; AnyBytes []; AnyFloat64 nanBits; AnyInt64 0] None.

Definition sampleRows (pending : list DriverRow) : Rows :=
  mkRows (Ok sampleColumns) (Ok sampleColumnTypes) pending None.

Definition tenRows : list DriverRow :=
  [sampleRow 1; sampleRow 2; sampleRow 3; sampleRow 4; brokenRow;
   sampleRow 6; sampleRow 7; sampleRow 8; sampleRow 9; sampleRow 10].

Definition sampleDB (pending : list DriverRow) : DB :=
  mkDB (fun _ => Ok (sampleRows pending)) (fun _ => Ok (sampleRows pending)).

Definition sampleConfig : Config := mkConfig "project" "dataset" "2006-01-02".

Definition sampleSource : DataSource :=
  mkDataSource "finance" "dsn" "finance_db" ["accounts"].

Definition sampleJob : Job DynamicRow :=
  @tableJob sampleLibs sampleConfig sampleSource "accounts"
            "SELECT * FROM finance_db.accounts".

Definition sampleQuery : string := "SELECT * FROM finance_db.accounts LIMIT 1".

Definition parsedSample : DynamicRow :=
  mkDynamicRow sampleColumns
    [AnyInt64 1; AnyNil; AnyString "2006-01-02"; AnyInt64 1].

Definition sampleSchema : Schema :=
  [ mkField "id" "INTEGER" true; mkField "name" "STRING" false;
    mkField "created_at" "TIMESTAMP" false; mkField "is_active" "BOOLEAN" false ].

(** A destination kept in memory: the schema of every table.  Its update
    refuses every change the way the service refuses a type change. *)
Definition sampleUpdateError : error :=
  "Provided Schema does not match Table. " +:+
  "Field id has changed type from STRING to INTEGER, invalid".

Definition sampleClient (updateErr : error) : Client (gmap string Schema) :=
  {| bq_Metadata := fun _ table d =>
       match d !! table with
       | Some schema => (Ok (mkTableMetadata table schema "etag"), d)
       | None => (Err "Error 404: Not found: Table", d)
       end;
     bq_Create := fun _ table tm d => (None, <[table := tm_Schema tm]> d);
     bq_Update := fun _ _ _ _ d => (Err updateErr, d);
     bq_Delete := fun _ table d => (None, delete table d);
     bq_LoaderRun := fun _ _ _ _ _ d => (Ok (mkBQJob "job-1"), d);
     bq_Wait := fun _ d => (Ok (mkJobStatus None), d) |}.

Definition sampleTable : BQTable := mkBQTable "accounts" sampleSchema.

Definition sampleWorld : World (gmap string Schema) :=
  mkWorld {[ "accounts" := [mkField "id" "STRING" false] ]} [].

(** ** model/models.go: the whole configuration *)

Module model.

(** [time.Duration]: a number of nanoseconds. *)
Definition Duration : Type := Z.
Definition Second : Duration := 1000000000%Z.
Definition Minute : Duration := (60 * Second)%Z.

(** [model.Config] with all its fields. *)
Record Config : Type := mkConfig {
  GCPProjectID : string;
  BigQueryDatasetID : string;
  SalesforceDBConnString : string;
  SalesforceDBName : string;
  FinanceDBConnString : string;
  FinanceDBName : string;
  SyncTimeout : Duration;
  MaxOpenConns : Z;
  MaxIdleConns : Z;
  DateFormat : string;
  ConnMaxLifetime : Duration
}.

End model.

(** The part of the configuration that the modelled pipeline reads. *)
Definition pipelineConfig (cfg : model.Config) : Config :=
  mkConfig (model.GCPProjectID cfg) (model.BigQueryDatasetID cfg)
           (model.DateFormat cfg).

(** ** config/config.go *)

Module config.

(** Library functions and run-time choices of the loader whose code is
    outside the repository. *)
Class Libs : Type := {
  (** [strconv.Atoi]. *)
  strconv_Atoi : string → result Z;
  (** [time.ParseDuration]. *)
  time_ParseDuration : string → result model.Duration;
  (** [strings.TrimFunc(s, unicode.IsSpace)], reached by [strings.TrimSpace]
      on meeting a byte >= 0x80 from the left. *)
  unicode_TrimFunc : string → string;
  (** [strings.TrimRightFunc(s, unicode.IsSpace)], reached on meeting such
      a byte from the right. *)
  unicode_TrimRightFunc : string → string;
  (** The order in which [range] visits a map: some order of its entries. *)
  range_order : gmap string string → list (string * string);
  range_order_entries : ∀ m, range_order m ≡ₚ map_to_list m
}.

Definition DBHost : string := "DB_HOST".
Definition FinanceDBName : string := "FINANCE_DB_NAME".
Definition FinanceDBUser : string := "FINANCE_DB_USER".
Definition FinanceDBPassword : string := "FINANCE_DB_PASSWORD".
Definition SalesforceDBName : string := "SALESFORCE_DB_NAME".
Definition SalesforceDBUser : string := "SALESFORCE_DB_USER".
Definition SalesforceDBPass : string := "SALESFORCE_DB_PASSWORD".
Definition GCPProjectID : string := "GCP_PROJECT_ID".
Definition BQDatasetID : string := "BQ_DATASET_ID".
Definition DBMaxOpenConns : string := "DB_MAX_OPEN_CONNECTIONS".
Definition DBMaxIdleConns : string := "DB_MAX_IDLE_CONNECTIONS".
Definition DBConnMaxLifetime : string := "DB_CONN_MAX_LIFETIME".
Definition SyncTimeoutKey : string := "SYNC_TIMEOUT".
Definition DateFormatKey : string := "DATE_FORMAT".

(** [os.Getenv] in the environment [env]: the empty string when unset. *)
Definition Getenv (env : gmap string string) (key : string) : string :=
  env !!! key.

(** The table [asciiSpace] of package strings. *)
Definition asciiSpace (c : ascii) : bool :=
  let n := Ascii.N_of_ascii c in
  ((n =? 9) || (n =? 10) || (n =? 11) || (n =? 12) || (n =? 13) || (n =? 32))%N.

(** One scanning loop of [strings.TrimSpace]: [inr rest] when it meets a
    byte >= 0x80, [inl rest] when it stops at a byte that is no space or
    runs out of bytes; [rest] is what is left from the stop on. *)
Fixpoint skipSpace (s : string) : string + string :=
  match s with
  | EmptyString => inl EmptyString
  | String c s' =>
      if negb (strings.byte_lt c 128) then inr s
      else if asciiSpace c then skipSpace s'
      else inl s
  end.

(** [strings.TrimSpace]: the loop from the left, then the same loop from
    the right. *)
Definition TrimSpace {libs : Libs} (s : string) : string :=
  match skipSpace s with
  | inr rest => unicode_TrimFunc rest
  | inl rest =>
      match skipSpace (String.rev rest) with
      | inr tser => unicode_TrimRightFunc (String.rev tser)
      | inl tser => String.rev tser
      end
  end.

Definition getEnv (env : gmap string string) (key defaultValue : string)
  : string :=
  let value := Getenv env key in
  if negb (String.eqb value EmptyString) then value else defaultValue.

(** The map literal [requiredVars]. *)
Definition requiredVars (env : gmap string string) : gmap string string :=
  list_to_map
    [ (DBHost, getEnv env DBHost "localhost");
      (FinanceDBName, getEnv env FinanceDBName "finance_db");
      (FinanceDBUser, getEnv env FinanceDBUser "finance_user");
      (FinanceDBPassword, getEnv env FinanceDBPassword "password");
      (SalesforceDBName, getEnv env SalesforceDBName "salesforce_db");
      (SalesforceDBUser, getEnv env SalesforceDBUser "salesforce_user");
      (SalesforceDBPass, getEnv env SalesforceDBPass "password");
      (GCPProjectID, getEnv env GCPProjectID "finance-mis");
      (BQDatasetID, getEnv env BQDatasetID "finance_salesforce");
      (DateFormatKey, getEnv env DateFormatKey "2006-01-02T15:04:05Z07:00") ].

(** [for key, value := range requiredVars { ... }]. *)
Definition missingVarsOf {libs : Libs} (vars : gmap string string) : list string :=
  foldl (fun missingVars '(key, value) =>
           if String.eqb (TrimSpace value) EmptyString
           then missingVars ++ [key]
           else missingVars) [] (range_order vars).

(** [%v] of a [[]string]. *)
Fixpoint joinSpace (l : list string) : string :=
  match l with
  | [] => EmptyString
  | [x] => x
  | x :: l' => x +:+ " " +:+ joinSpace l'
  end.

Definition fmt_v (l : list string) : string := "[" +:+ joinSpace l +:+ "]".

(** The [fmt.Sprintf] of the two connection strings. *)
Definition connString (user password host dbName : string) : string :=
  user +:+ ":" +:+ password +:+ "@tcp(" +:+ host +:+ ")/" +:+ dbName +:+
  "?tls=true&parseTime=true&timeout=30s&readTimeout=60s&writeTimeout=60s".

Definition LoadConfig {libs : Libs} (env : gmap string string)
  : result model.Config :=
  let requiredVars := requiredVars env in
  let missingVars := missingVarsOf requiredVars in
  if 0 <? length missingVars then
    Err ("missing required environment variables: " +:+ fmt_v missingVars)
  else
    let financeConnString :=
      connString (requiredVars !!! FinanceDBUser)
                 (requiredVars !!! FinanceDBPassword)
                 (requiredVars !!! DBHost)
                 (requiredVars !!! FinanceDBName) in
    let salesforceConnString :=
      connString (requiredVars !!! SalesforceDBUser)
                 (requiredVars !!! SalesforceDBPass)
                 (requiredVars !!! DBHost)
                 (requiredVars !!! SalesforceDBName) in
    let maxOpen :=
      match strconv_Atoi (getEnv env DBMaxOpenConns "10") with
      | Ok n => n
      | Err _ => 10%Z
      end in
    let maxIdle :=
      match strconv_Atoi (getEnv env DBMaxIdleConns "10") with
      | Ok n => n
      | Err _ => 10%Z
      end in
    let syncTimeout :=
      match time_ParseDuration (getEnv env SyncTimeoutKey "10m") with
      | Ok d => d
      | Err _ => (10 * model.Minute)%Z
      end in
    let connMaxLifetime :=
      match time_ParseDuration (getEnv env DBConnMaxLifetime "1m") with
      | Ok d => d
      | Err _ => (0 * model.Second)%Z
      end in
    Ok {| model.GCPProjectID := requiredVars !!! GCPProjectID;
          model.BigQueryDatasetID := requiredVars !!! BQDatasetID;
          model.SalesforceDBConnString := salesforceConnString;
          model.SalesforceDBName := requiredVars !!! SalesforceDBName;
          model.FinanceDBConnString := financeConnString;
          model.FinanceDBName := requiredVars !!! FinanceDBName;
          model.SyncTimeout := syncTimeout;
          model.DateFormat := requiredVars !!! DateFormatKey;
          model.MaxOpenConns := maxOpen;
          model.MaxIdleConns := maxIdle;
          model.ConnMaxLifetime := connMaxLifetime |}.

(** The ten keys of [requiredVars] with their defaults. *)
Definition requiredDefaults : list (string * string) :=
  [ (DBHost, "localhost"); (FinanceDBName, "finance_db");
    (FinanceDBUser, "finance_user"); (FinanceDBPassword, "password");
    (SalesforceDBName, "salesforce_db"); (SalesforceDBUser, "salesforce_user");
    (SalesforceDBPass, "password"); (GCPProjectID, "finance-mis");
    (BQDatasetID, "finance_salesforce");
    (DateFormatKey, "2006-01-02T15:04:05Z07:00") ].

End config.

(** The keys with the values [requiredVars] holds for them. *)
Definition resolvedVars (env : gmap string string) : list (string * string) :=
  (fun kd : string * string => (kd.1, config.getEnv env kd.1 kd.2))
    <$> config.requiredDefaults.

(** The keys whose value [strings.TrimSpace] empties, in the order of [l]. *)
Definition blankKeys {libs : config.Libs} (l : list (string * string))
  : list string :=
  (filter (fun kv : string * string => config.TrimSpace kv.2 = EmptyString) l).*1.

(** The variable [key] is set, to a value that is nothing but space. *)
Definition setToBlank {libs : config.Libs} (env : gmap string string)
    (key : string) : Prop :=
  config.Getenv env key ≠ EmptyString ∧
  config.TrimSpace (config.Getenv env key) = EmptyString.

(** The field holds the value of [key], or [dflt] when [key] is unset or
    empty, and is not blank. *)
Definition loadedFrom {libs : config.Libs} (env : gmap string string)
    (field key dflt : string) : Prop :=
  field = config.getEnv env key dflt ∧ config.TrimSpace field ≠ EmptyString.

(** ** Further notions used to state properties *)

(** [sub] occurs in [s] as a contiguous run of bytes. *)
Definition occursIn (sub s : string) : Prop :=
  ∃ before after, s = before +:+ sub +:+ after.

(** The type of the last field of [s] named [n], if there is one. *)
Definition lastTypeOf (s : Schema) (n : string) : option FieldType :=
  Type_ <$> last (filter (fun field => Name field = n) s).

(** The map that [SchemasMatch] builds, from the (name, type) pairs alone. *)
Definition typesOfPairs (pairs : list (string * FieldType))
  : gmap string FieldType :=
  foldl (fun m (p : string * FieldType) => <[p.1 := p.2]> m) ∅ pairs.

(** The values the JSON encoder takes as they are: no byte slice, no time. *)
Definition jsonSafe (v : any) : bool :=
  match v with
  | AnyBytes _ | AnyTime _ => false
  | _ => true
  end.

(** The request sequences of one reconciliation of table [name] towards
    [schema]: look the table up; then create it, or update it, then delete
    it, then create it. *)
Definition reconcileTraces (ds name : string) (schema : Schema)
    (calls : list BQCall) : Prop :=
  let fresh := mkTableMetadata name schema "" in
  calls = [CallMetadata ds name] ∨
  calls = [CallMetadata ds name; CallCreate ds name fresh] ∨
  ∃ etag,
    calls = [CallMetadata ds name; CallUpdate ds name schema etag] ∨
    calls = [CallMetadata ds name; CallUpdate ds name schema etag;
             CallDelete ds name] ∨
    calls = [CallMetadata ds name; CallUpdate ds name schema etag;
             CallDelete ds name; CallCreate ds name fresh].

(** The request sequences of one load into [table]: none, the submission,
    or the submission and the wait for it. *)
Definition loadTraces (ds table : string) (calls : list BQCall) : Prop :=
  calls = [] ∨
  ∃ payload,
    calls = [CallLoaderRun ds table payload JSON WriteTruncate] ∨
    ∃ job, calls = [CallLoaderRun ds table payload JSON WriteTruncate;
                    CallWait job].

(** ** Further sample data *)

(** Stand-ins for the number and duration parsers, knowing a few texts. *)
Definition sampleConfigLibs : config.Libs :=
  {| config.strconv_Atoi := fun s =>
       if String.eqb s "10" then Ok 10%Z
       else if String.eqb s "25" then Ok 25%Z
       else Err "strconv.Atoi: invalid syntax";
     config.time_ParseDuration := fun s =>
       if String.eqb s "10m" then Ok 600000000000%Z
       else if String.eqb s "1m" then Ok 60000000000%Z
       else Err "time: invalid duration";
     config.unicode_TrimFunc := fun s => s;
     config.unicode_TrimRightFunc := fun s => s;
     config.range_order := map_to_list;
     config.range_order_entries := fun m => Permutation_refl (map_to_list m) |}.

(** An environment with a blank project and unusable optional settings. *)
Definition blankEnv : gmap string string :=
  {[ "GCP_PROJECT_ID" := "   "; "DATE_FORMAT" := "2006-01-02" ]}.

Definition sampleEnv : gmap string string :=
  {[ "DATE_FORMAT" := "2006-01-02"; "FINANCE_DB_NAME" := "ledger";
     "DB_MAX_OPEN_CONNECTIONS" := "25"; "SYNC_TIMEOUT" := "soon";
     "DB_CONN_MAX_LIFETIME" := "never" ]}.

(** The configuration loaded from [sampleEnv]. *)
Definition sampleLoaded : model.Config :=
  {| model.GCPProjectID := "finance-mis";
     model.BigQueryDatasetID := "finance_salesforce";
     model.SalesforceDBConnString :=
       config.connString "salesforce_user" "password" "localhost" "salesforce_db";
     model.SalesforceDBName := "salesforce_db";
     model.FinanceDBConnString :=
       config.connString "finance_user" "password" "localhost" "ledger";
     model.FinanceDBName := "ledger";
     model.SyncTimeout := 600000000000%Z;
     model.MaxOpenConns := 25%Z;
     model.MaxIdleConns := 10%Z;
     model.DateFormat := "2006-01-02";
     model.ConnMaxLifetime := 0%Z |}.

(** A result set whose columns can no longer be read. *)
Definition closedRows : Rows :=
  mkRows (Err "sql: Rows are closed") (Err "sql: Rows are closed") [] None.

(** A row with fewer values than column names. *)
Definition shortRow : DynamicRow := mkDynamicRow ["id"; "name"] [AnyInt64 1].

(** A destination that refuses the lookup. *)
Definition deniedClient : Client (gmap string Schema) :=
  {| bq_Metadata := fun _ _ d => (Err "Error 403: Access Denied", d);
     bq_Create := fun _ table tm d => (None, <[table := tm_Schema tm]> d);
     bq_Update := fun _ _ _ _ d => (Err "Error 403: Access Denied", d);
     bq_Delete := fun _ table d => (None, delete table d);
     bq_LoaderRun := fun _ _ _ _ _ d => (Err "Error 403: Access Denied", d);
     bq_Wait := fun _ d => (Ok (mkJobStatus None), d) |}.

(** A destination that holds the table with its fields in another order. *)
Definition reorderedWorld : World (gmap string Schema) :=
  mkWorld {[ "accounts" := reverse sampleSchema ]} [].

Definition emptyWorld : World (gmap string Schema) := mkWorld ∅ [].

(** A schema in which a name is repeated with two types. *)
Definition repeatedSchema : Schema :=
  [mkField "a" "STRING" false; mkField "a" "INTEGER" false].

(** * Properties *)

(** ** Type mapping *)

Lemma upper_byte_letter c :
  is_upper_letter (strings.upper_byte c) = true →
  strings.byte_lt c 128 = true ∧ Ascii.eqb c "("%char = false.
Proof.
  destruct c as [[] [] [] [] [] [] [] []]; vm_compute; intros; split; congruence.
Qed.

Lemma spells_letters s name :
  spells s name → all_bytes is_upper_letter name = true →
  strings.isASCII s = true ∧
  all_bytes (fun c => negb (Ascii.eqb c "("%char)) s = true.
Proof.
  unfold spells. revert name. induction s as [|c s IH]; intros name Hs Hn.
  - done.
  - simpl in Hs. subst name. simpl in Hn.
    apply andb_prop in Hn as [Hc Hn].
    destruct (upper_byte_letter c Hc) as [Hlt Hpar].
    destruct (IH _ eq_refl Hn) as [IH1 IH2].
    split.
    + unfold strings.isASCII in *. simpl. by rewrite Hlt, IH1.
    + simpl. by rewrite Hpar, IH2.
Qed.

Lemma Split_no_sep s sep :
  all_bytes (fun c => negb (Ascii.eqb c sep)) s = true →
  strings.Split s sep = [s].
Proof.
  induction s as [|c s IH]; simpl; [done|].
  intros [Hc Hs]%andb_prop. apply negb_true_iff in Hc. rewrite Hc.
  by rewrite (IH Hs).
Qed.

Lemma Split_at_sep s sep rest :
  all_bytes (fun c => negb (Ascii.eqb c sep)) s = true →
  strings.Split (s +:+ String sep rest) sep = s :: strings.Split rest sep.
Proof.
  induction s as [|c s IH]; simpl.
  - intros _. by rewrite Ascii.eqb_refl.
  - intros [Hc Hs]%andb_prop. apply negb_true_iff in Hc. rewrite Hc.
    by rewrite (IH Hs).
Qed.

Lemma Split_nonempty s sep : strings.Split s sep ≠ [].
Proof.
  induction s as [|c s IH]; simpl; [done|].
  destruct (Ascii.eqb c sep); [done|]. by destruct (strings.Split s sep).
Qed.

Lemma case_of_true t labels : case_of t labels = true ↔ t ∈ labels.
Proof.
  unfold case_of. rewrite existsb_exists. split.
  - intros (x & Hx & Heq). apply String.eqb_eq in Heq. subst.
    by apply list_elem_of_In.
  - intros Hin. exists t. split; [by apply list_elem_of_In | apply String.eqb_refl].
Qed.

Lemma case_of_unlisted t labels :
  t ∉ documentedTypes.*1 →
  forallb (fun l => bool_decide (l ∈ documentedTypes.*1)) labels = true →
  case_of t labels = false.
Proof.
  intros Hnot Hall. apply not_true_is_false. intros Hin%case_of_true.
  apply Hnot. rewrite forallb_forall in Hall.
  apply list_elem_of_In, Hall in Hin. by apply bool_decide_eq_true in Hin.
Qed.

Lemma documentedTypes_letters name ty :
  (name, ty) ∈ documentedTypes → all_bytes is_upper_letter name = true.
Proof.
  unfold documentedTypes. intros Hin.
  repeat (apply elem_of_cons in Hin as [Hin|Hin]; [by inversion Hin|]).
  by apply elem_of_nil in Hin.
Qed.

Section TypeMapping.
Context {libs : GoLibs}.

Lemma switchSubject_spelled s name ty :
  (name, ty) ∈ documentedTypes → spells s name →
  switchSubject s = name ∧
  ∀ params, switchSubject (s +:+ String "("%char params) = name.
Proof.
  intros Hin Hs.
  destruct (spells_letters s name Hs (documentedTypes_letters _ _ Hin))
    as [Hascii Hnosep].
  unfold switchSubject. split.
  - rewrite (Split_no_sep _ _ Hnosep). unfold strings.ToUpper.
    by rewrite Hascii.
  - intros params. rewrite (Split_at_sep _ _ _ Hnosep).
    unfold strings.ToUpper. by rewrite Hascii.
Qed.

Lemma mapping_of_subject s name ty :
  (name, ty) ∈ documentedTypes → switchSubject s = name →
  mysqlTypeToBigQueryType s = ty.
Proof.
  unfold mysqlTypeToBigQueryType. intros Hin ->. revert Hin.
  generalize (switchSubject s). intros t Hin. unfold documentedTypes in Hin.
  repeat (apply elem_of_cons in Hin as [Hin|Hin];
          [inversion Hin; subst; reflexivity|]).
  by apply elem_of_nil in Hin.
Qed.

(** C2. The type mapping is a total function.  Every name of the lookup
    table, spelled in any mix of upper and lower case, alone or followed
    by a parenthesized suffix, is mapped to the table's semantic type;
    every name whose normalized form is not in the table is mapped to
    STRING; every result is one of the six semantic types. *)
Theorem mysqlTypeToBigQueryType_total_mapping :
  (∀ name ty s, (name, ty) ∈ documentedTypes → spells s name →
     mysqlTypeToBigQueryType s = ty ∧
     ∀ params, mysqlTypeToBigQueryType (s +:+ "(" +:+ params) = ty) ∧
  (∀ s, switchSubject s ∉ documentedTypes.*1 →
     mysqlTypeToBigQueryType s = StringFieldType) ∧
  (∀ s, mysqlTypeToBigQueryType s ∈ semanticTypes).
Proof.
  split; [|split].
  - intros name ty s Hin Hs.
    destruct (switchSubject_spelled s name ty Hin Hs) as [H1 H2].
    split; [by eapply mapping_of_subject|].
    intros params. eapply mapping_of_subject; [done|]. apply H2.
  - intros s Hnot. unfold mysqlTypeToBigQueryType.
    rewrite !(case_of_unlisted _ _ Hnot); [done|by vm_compute..].
  - intros s. unfold mysqlTypeToBigQueryType, semanticTypes.
    repeat match goal with
    | |- context [case_of ?t ?l] => destruct (case_of t l)
    end; set_solver.
Qed.

End TypeMapping.

(** ** Schema comparison *)

Lemma typesByName_acc_other (s : list FieldSchema) (m : gmap string FieldType) n :
  n ∉ Name <$> s →
  foldl (fun mapS1 field => <[Name field := Type_ field]> mapS1) m s !! n = m !! n.
Proof.
  revert m. induction s as [|g s IH]; intros m Hn; simpl; [done|].
  csimpl in Hn. apply not_elem_of_cons in Hn as [Hne Hn].
  rewrite (IH _ Hn). by rewrite lookup_insert_ne.
Qed.

Lemma typesByName_acc_member (s : list FieldSchema) (m : gmap string FieldType) field :
  uniqueNames s → field ∈ s →
  foldl (fun mapS1 field => <[Name field := Type_ field]> mapS1) m s !! Name field
  = Some (Type_ field).
Proof.
  unfold uniqueNames. revert m.
  induction s as [|g s IH]; intros m Hnd Hin; [by apply elem_of_nil in Hin|].
  csimpl in Hnd. apply NoDup_cons in Hnd as [Hg Hnd]. simpl.
  apply elem_of_cons in Hin as [->|Hin].
  - rewrite typesByName_acc_other by done. apply lookup_insert_eq.
  - by apply IH.
Qed.

Lemma typesByName_acc_origin (s : list FieldSchema) (m : gmap string FieldType) n t :
  foldl (fun mapS1 field => <[Name field := Type_ field]> mapS1) m s !! n = Some t →
  m !! n = Some t ∨ (n, t) ∈ nameTypePairs s.
Proof.
  revert m. induction s as [|g s IH]; intros m Hl; simpl in *; [by left|].
  destruct (IH _ Hl) as [Hm|Hin].
  - destruct (decide (Name g = n)) as [<-|Hne].
    + rewrite lookup_insert_eq in Hm. inversion Hm; subst.
      right. unfold nameTypePairs. csimpl. apply elem_of_cons. by left.
    + rewrite lookup_insert_ne in Hm by done. by left.
  - right. unfold nameTypePairs in *. csimpl. apply elem_of_cons. by right.
Qed.

Lemma mismatches_acc_none (m : gmap string FieldType) (s2 : list FieldSchema) acc :
  foldl (fun mismatches field =>
           match m !! Name field with
           | None => mismatches ++ ["missing:" +:+ Name field]
           | Some t =>
               if negb (String.eqb t (Type_ field))
               then mismatches ++ ["type:" +:+ Name field]
               else mismatches
           end) acc s2 = [] ↔
  acc = [] ∧ Forall (fun field => m !! Name field = Some (Type_ field)) s2.
Proof.
  revert acc. induction s2 as [|g s2 IH]; intros acc; simpl.
  - split; [intros ->; by split | by intros [-> _]].
  - rewrite IH, Forall_cons. destruct (m !! Name g) as [t|] eqn:Hl.
    + destruct (String.eqb t (Type_ g)) eqn:Heq; simpl.
      * apply String.eqb_eq in Heq. subst. tauto.
      * apply String.eqb_neq in Heq. split.
        -- intros [Habs _]. by destruct acc.
        -- intros (_ & Hg & _). congruence.
    + split.
      * intros [Habs _]. by destruct acc.
      * intros (_ & Hg & _). congruence.
Qed.

(** What [SchemasMatch] decides, for arbitrary slices. *)
Lemma SchemasMatch_true (s1 s2 : list FieldSchema) :
  SchemasMatch s1 s2 = true ↔
  length s1 = length s2 ∧
  Forall (fun field => typesByName s1 !! Name field = Some (Type_ field)) s2.
Proof.
  unfold SchemasMatch, mismatchesAgainst.
  destruct (Nat.eqb_spec (length s1) (length s2)) as [Hlen|Hlen]; simpl.
  - pose proof (mismatches_acc_none (typesByName s1) s2 []) as Hm.
    match goal with |- context [length ?l] => destruct l eqn:Hl end; simpl.
    + split; [intros _; split; [done|]; by apply Hm | done].
    + split; [done|]. intros [_ Hall].
      destruct Hm as [_ Hm]. by specialize (Hm (conj eq_refl Hall)).
  - split; [done | by intros [? _]].
Qed.

Lemma names_of_pairs (s : list FieldSchema) : Name <$> s = (nameTypePairs s).*1.
Proof. unfold nameTypePairs. by rewrite <- list_fmap_compose. Qed.

Lemma pairs_member (s : list FieldSchema) n t :
  (n, t) ∈ nameTypePairs s ↔
  ∃ field, field ∈ s ∧ Name field = n ∧ Type_ field = t.
Proof.
  unfold nameTypePairs. rewrite list_elem_of_fmap. split.
  - intros (field & Heq & Hin). inversion Heq. eauto.
  - intros (field & Hin & <- & <-). eauto.
Qed.

Lemma typesByName_lookup (s1 : list FieldSchema) n t :
  uniqueNames s1 →
  typesByName s1 !! n = Some t ↔ (n, t) ∈ nameTypePairs s1.
Proof.
  intros Hu. split.
  - intros Hl. by destruct (typesByName_acc_origin s1 ∅ n t Hl) as [Habs|].
  - intros (field & Hin & <- & <-)%pairs_member.
    by apply typesByName_acc_member.
Qed.

(** With unique names on both sides, [SchemasMatch] decides equality of the
    (name, type) pairs up to order. *)
Lemma SchemasMatch_pairs (s1 s2 : list FieldSchema) :
  uniqueNames s1 → uniqueNames s2 →
  SchemasMatch s1 s2 = true ↔ nameTypePairs s1 ≡ₚ nameTypePairs s2.
Proof.
  intros Hu1 Hu2. rewrite SchemasMatch_true. split.
  - intros [Hlen Hall]. symmetry. apply submseteq_length_Permutation.
    + apply NoDup_submseteq.
      * apply (NoDup_fmap_1 fst). rewrite <- names_of_pairs. exact Hu2.
      * intros [n t] (field & Hin & <- & <-)%pairs_member.
        rewrite Forall_forall in Hall. by apply typesByName_lookup, Hall.
    + unfold nameTypePairs. rewrite !length_fmap. lia.
  - intros Hp. split.
    + apply Permutation_length in Hp. unfold nameTypePairs in Hp.
      by rewrite !length_fmap in Hp.
    + apply Forall_forall. intros field Hin.
      apply typesByName_lookup; [done|]. rewrite Hp.
      apply pairs_member. eauto.
Qed.

(** C5. For schemas of the data model (column names unique within each),
    [SchemasMatch] is symmetric; it reports equal whenever both sides hold
    the same (name, type) pairs in whatever order, the required flag
    playing no part; it reports unequal whenever a field name occurs on
    one side only, and whenever a name is given different types. *)
Theorem SchemasMatch_symmetric_order_insensitive (s1 s2 : Schema) :
  uniqueNames s1 → uniqueNames s2 →
  SchemasMatch s1 s2 = SchemasMatch s2 s1 ∧
  (nameTypePairs s1 ≡ₚ nameTypePairs s2 → SchemasMatch s1 s2 = true) ∧
  (∀ n, (n ∈ Name <$> s1 ∧ n ∉ Name <$> s2) ∨
        (n ∈ Name <$> s2 ∧ n ∉ Name <$> s1) →
        SchemasMatch s1 s2 = false) ∧
  (∀ f1 f2, f1 ∈ s1 → f2 ∈ s2 → Name f1 = Name f2 → Type_ f1 ≠ Type_ f2 →
        SchemasMatch s1 s2 = false).
Proof.
  intros Hu1 Hu2.
  pose proof (SchemasMatch_pairs s1 s2 Hu1 Hu2) as H12.
  pose proof (SchemasMatch_pairs s2 s1 Hu2 Hu1) as H21.
  split; [|split; [|split]].
  - destruct (SchemasMatch s1 s2) eqn:E12, (SchemasMatch s2 s1) eqn:E21; try done.
    + destruct H12 as [H12 _]. destruct H21 as [_ H21].
      symmetry. rewrite <- H21; [done|]. symmetry. by apply H12.
    + destruct H12 as [_ H12]. destruct H21 as [H21 _].
      rewrite <- H12; [done|]. symmetry. by apply H21.
  - apply H12.
  - intros n Hn. apply not_true_is_false. intros Hp%H12.
    rewrite !names_of_pairs in Hn. rewrite Hp in Hn. tauto.
  - intros f1 f2 Hin1 Hin2 Hname Hty. apply not_true_is_false. intros Hp%H12.
    assert ((Name f2, Type_ f1) ∈ nameTypePairs s2) as Hin.
    { rewrite <- Hp, <- Hname. apply pairs_member. eauto. }
    assert ((Name f2, Type_ f2) ∈ nameTypePairs s2) as Hin'.
    { apply pairs_member. eauto. }
    apply (typesByName_lookup _ _ _ Hu2) in Hin, Hin'. congruence.
Qed.

(** ** Schema inference *)

Section Inference.
Context {libs : GoLibs}.

Lemma append_fields (cols : list ColumnType) (acc : list FieldSchema) :
  foldl (fun schema col => schema ++ [fieldOf col]) acc cols
  = acc ++ (fieldOf <$> cols).
Proof.
  revert acc. induction cols as [|col cols IH]; intros acc; simpl.
  - by rewrite app_nil_r.
  - rewrite IH. by rewrite <- app_assoc.
Qed.

Lemma InferSchemaFromMySQL_Ok db query (schema : Schema) :
  InferSchemaFromMySQL db query = Ok schema →
  ∃ rows cols, db_Query db query = Ok rows ∧ ColumnTypes rows = Ok cols ∧
               schema = fieldOf <$> cols.
Proof.
  unfold InferSchemaFromMySQL. intros Hinf.
  destruct (db_Query db query) as [rows|]; [|done].
  destruct (ColumnTypes rows) as [cols|] eqn:Hcols; [|done].
  exists rows, cols. rewrite append_fields in Hinf. simpl in Hinf.
  inversion Hinf; subst. by repeat split.
Qed.

(** C7. In an inferred schema a field is required exactly when the
    driver asserts that its column is not nullable; a column whose
    nullability the driver cannot tell gives a nullable field. *)
Theorem InferSchemaFromMySQL_required_only_if_asserted db query
    (schema : Schema) :
  InferSchemaFromMySQL db query = Ok schema →
  ∃ rows cols, db_Query db query = Ok rows ∧ ColumnTypes rows = Ok cols ∧
    ∀ i field, schema !! i = Some field →
      ∃ col, cols !! i = Some col ∧
        (Required field = true ↔ Nullable col = (false, true)) ∧
        ((Nullable col).2 = false → Required field = false).
Proof.
  intros (rows & cols & Hq & Hc & ->)%InferSchemaFromMySQL_Ok.
  exists rows, cols. split; [done|]. split; [done|].
  intros i field Hi. rewrite list_lookup_fmap in Hi.
  destruct (cols !! i) as [col|]; [|done]. inversion Hi; subst.
  exists col. split; [done|]. unfold fieldOf.
  destruct (Nullable col) as [[] []]; simpl; split; (split || idtac); congruence.
Qed.

(** C10. A successful inference returns one field per column of the
    result set, in column order, each named after its column. *)
Theorem InferSchemaFromMySQL_fields_follow_columns db query (schema : Schema) :
  InferSchemaFromMySQL db query = Ok schema →
  ∃ rows cols, db_Query db query = Ok rows ∧ ColumnTypes rows = Ok cols ∧
    length schema = length cols ∧
    Name <$> schema = ct_Name <$> cols ∧
    ∀ i col, cols !! i = Some col →
      ∃ field, schema !! i = Some field ∧ Name field = ct_Name col.
Proof.
  intros (rows & cols & Hq & Hc & ->)%InferSchemaFromMySQL_Ok.
  exists rows, cols. split; [done|]. split; [done|].
  split; [by rewrite length_fmap|]. split.
  - rewrite <- list_fmap_compose. apply list_fmap_ext. intros i col _.
    unfold fieldOf. simpl. by destruct (Nullable col).
  - intros i col Hi. exists (fieldOf col). rewrite list_lookup_fmap, Hi.
    split; [done|]. unfold fieldOf. by destruct (Nullable col).
Qed.

End Inference.

(** ** Row parsing *)

Section Parsing.
Context {libs : GoLibs}.

Lemma convertInto_prefix (values : list any) dateFormat i (dst : list any) :
  length dst = i + length values →
  convertInto i values dateFormat dst
  = take i dst ++ ((fun v => convertValueToInterface v dateFormat) <$> values).
Proof.
  revert i dst. induction values as [|v values IH]; intros i dst Hlen; simpl.
  - rewrite app_nil_r. simpl in Hlen. symmetry. apply take_ge. lia.
  - simpl in Hlen. rewrite IH by (rewrite length_insert; lia).
    rewrite (take_S_r _ _ (convertValueToInterface v dateFormat)).
    + rewrite take_insert_ge by lia. by rewrite <- app_assoc.
    + apply list_lookup_insert_eq. lia.
Qed.

Lemma ParseDynamicRow_Ok rows cur dateFormat row :
  ParseDynamicRow rows cur dateFormat = Ok row →
  ∃ cols, Columns rows = Ok cols ∧ scanErr cur = None ∧
          length (lastcols cur) = length cols ∧
          ColumnNames row = cols ∧
          Values row = (fun v => convertValueToInterface v dateFormat) <$> lastcols cur.
Proof.
  unfold ParseDynamicRow, Scan. intros Hp.
  destruct (Columns rows) as [cols|]; [|done].
  destruct (scanErr cur); [done|].
  destruct (decide (length (lastcols cur) = length cols)) as [Hlen|]; [|done].
  inversion Hp; subst; clear Hp. exists cols. simpl.
  repeat split; try done.
  rewrite convertInto_prefix by (rewrite length_replicate; lia).
  by rewrite take_0.
Qed.

Lemma ToSaveable_from_frame names : ∀ i (values : list any) acc record k,
  ToSaveable_from i names values acc = Some record →
  k ∉ names → record !! k = acc !! k.
Proof.
  induction names as [|c names IH]; intros i values acc record k Hs Hk; simpl in Hs.
  - by inversion Hs.
  - apply not_elem_of_cons in Hk as [Hne Hk].
    destruct (values !! i) as [v|]; [|done].
    rewrite (IH _ _ _ _ _ Hs Hk). by rewrite lookup_insert_ne.
Qed.

Lemma ToSaveable_from_origin names : ∀ i (values : list any) acc record k v,
  ToSaveable_from i names values acc = Some record →
  record !! k = Some v →
  acc !! k = Some v ∨ ∃ j, names !! j = Some k ∧ values !! (i + j) = Some v.
Proof.
  induction names as [|c names IH]; intros i values acc record k v Hs Hk;
    simpl in Hs.
  - inversion Hs; subst. by left.
  - destruct (values !! i) as [v0|] eqn:Hv0; [|done].
    destruct (IH _ _ _ _ _ _ Hs Hk) as [Hacc|(j & Hj & Hv)].
    + destruct (decide (c = k)) as [->|Hne].
      * rewrite lookup_insert_eq in Hacc. inversion Hacc; subst.
        right. exists 0. by rewrite Nat.add_0_r.
      * rewrite lookup_insert_ne in Hacc by done. by left.
    + right. exists (S j). split; [done|]. by rewrite <- Nat.add_succ_comm.
Qed.

Lemma ToSaveable_from_spec names : ∀ i (values : list any) acc,
  i + length names ≤ length values →
  ∃ record, ToSaveable_from i names values acc = Some record ∧
    dom record = dom acc ∪ list_to_set names ∧
    ∀ j colName, names !! j = Some colName → colName ∉ drop (S j) names →
                 record !! colName = values !! (i + j).
Proof.
  induction names as [|c names IH]; intros i values acc Hlen; simpl in *.
  - exists acc. split; [done|]. split; [|done].
    by rewrite ?list_to_set_nil, (right_id_L ∅ (∪)).
  - destruct (lookup_lt_is_Some_2 values i ltac:(lia)) as [v Hv]. rewrite Hv.
    destruct (IH (S i) values (<[c:=v]> acc) ltac:(lia)) as (record & Hs & Hdom & Hlk).
    exists record. split; [done|]. split.
    + rewrite Hdom, dom_insert_L, ?list_to_set_cons.
      by rewrite (assoc_L (∪)), (comm_L (∪) (dom acc)).
    + intros [|j] colName Hj Hlater; simpl in *.
      * inversion Hj; subst. rewrite drop_0 in Hlater.
        rewrite (ToSaveable_from_frame _ _ _ _ _ _ Hs Hlater).
        rewrite lookup_insert_eq. by rewrite Nat.add_0_r.
      * rewrite (Hlk j colName Hj Hlater). f_equal. lia.
Qed.

(** C8. The record of a successfully parsed row has exactly the column
    names of the result set as its keys. *)
Theorem ParseDynamicRow_record_keys rows cur dateFormat row :
  ParseDynamicRow rows cur dateFormat = Ok row →
  ∃ cols record, Columns rows = Ok cols ∧ ToSaveable row = Some record ∧
                 dom record = list_to_set cols.
Proof.
  intros (cols & Hc & _ & Hlen & Hn & Hv)%ParseDynamicRow_Ok.
  destruct (ToSaveable_from_spec (ColumnNames row) 0 (Values row) ∅)
    as (record & Hs & Hdom & _).
  { rewrite Hn, Hv, length_fmap. lia. }
  exists cols, record. split; [done|]. split; [done|].
  by rewrite Hdom, dom_empty_L, Hn, (left_id_L ∅ (∪)).
Qed.

(** C6. Value conversion is total: bytes become the string of the same
    bytes, a time becomes its rendering in the one configured format,
    nil stays nil and every other value is returned as it is.  In the
    record of a parsed row the key of every column is present and bound
    to the conversion, with that one format, of the raw value of a column
    of that name: of the column itself when no later column carries the
    same name, so that a nil raw value is then bound as nil.  The parse
    function of every table job formats every time value with the format
    of the configuration. *)
Theorem convertValueToInterface_rules dateFormat :
  (∀ b, convertValueToInterface (AnyBytes b) dateFormat
          = AnyString (String.string_of_list_byte b) ∧
        String.list_byte_of_string (String.string_of_list_byte b) = b) ∧
  (∀ t, convertValueToInterface (AnyTime t) dateFormat
          = AnyString (time_Format t dateFormat)) ∧
  (∀ v, passesThrough v = true → convertValueToInterface v dateFormat = v) ∧
  convertValueToInterface AnyNil dateFormat = AnyNil ∧
  (∀ rows cur row, ParseDynamicRow rows cur dateFormat = Ok row →
     ∃ cols record, Columns rows = Ok cols ∧ ToSaveable row = Some record ∧
       ∀ i colName raw, cols !! i = Some colName → lastcols cur !! i = Some raw →
         (∃ j raw', cols !! j = Some colName ∧ lastcols cur !! j = Some raw' ∧
            record !! colName = Some (convertValueToInterface raw' dateFormat)) ∧
         (colName ∉ drop (S i) cols →
          record !! colName = Some (convertValueToInterface raw dateFormat)) ∧
         (raw = AnyNil → colName ∉ drop (S i) cols →
          record !! colName = Some AnyNil)) ∧
  (∀ cfg source table query rows cur row,
     DateFormat cfg = dateFormat →
     ParseFunc (tableJob cfg source table query) rows cur = Ok row →
     ∀ i t, lastcols cur !! i = Some (AnyTime t) →
            Values row !! i = Some (AnyString (time_Format t dateFormat))).
Proof.
  split; [|split; [|split; [|split; [|split]]]].
  - intros b. split; [done|]. apply String.list_byte_of_string_of_list_byte.
  - done.
  - by intros [].
  - done.
  - intros rows cur row (cols & Hc & _ & Hlen & Hn & Hv)%ParseDynamicRow_Ok.
    destruct (ToSaveable_from_spec (ColumnNames row) 0 (Values row) ∅)
      as (record & Hs & Hdom & Hlk).
    { rewrite Hn, Hv, length_fmap. lia. }
    exists cols, record. split; [done|]. split; [done|].
    intros i colName raw Hi Hraw.
    assert (colName ∉ drop (S i) cols →
            record !! colName = Some (convertValueToInterface raw dateFormat))
      as Hlast.
    { intros Hlater. rewrite Hn in Hlk. rewrite (Hlk i colName Hi Hlater).
      simpl. by rewrite Hv, list_lookup_fmap, Hraw. }
    split; [|split].
    + assert (is_Some (record !! colName)) as [v Hv'].
      { apply elem_of_dom. rewrite Hdom, Hn. apply elem_of_union_r.
        apply elem_of_list_to_set. by eapply list_elem_of_lookup_2. }
      destruct (ToSaveable_from_origin _ _ _ _ _ _ _ Hs Hv')
        as [Habs|(j & Hj & Hvj)]; [done|].
      simpl in Hvj. rewrite Hv, list_lookup_fmap in Hvj.
      destruct (lastcols cur !! j) as [raw'|] eqn:Hraw'; [|done].
      inversion Hvj; subst v. exists j, raw'. by rewrite <- Hn.
    + done.
    + intros -> Hlater. by rewrite Hlast.
  - intros cfg source table query rows cur row <- Hp i t Hi. simpl in Hp.
    apply ParseDynamicRow_Ok in Hp as (cols & _ & _ & _ & _ & Hv).
    by rewrite Hv, list_lookup_fmap, Hi.
Qed.

End Parsing.

(** ** Table reconciliation *)

Section Reconciliation.
Context {D : Type} (client : Client D).

(** C1. When the table exists, its schema differs and the in-place update
    fails, the table is deleted (and, the deletion succeeding, created
    with the new schema) exactly when the update error is classified as
    critical, that is, when its message contains "invalid" together with
    "changed type" or "is missing".  For any other update error the call
    returns that error wrapped, and neither a delete nor a create is
    sent. *)
Theorem recreate_only_on_critical_update_error (datasetID : string)
    (table : BQTable) (w : World D) (metadata : TableMetadata)
    (updateErr : error) (d1 d2 : D) :
  bq_Metadata client datasetID (bt_Name table) (dest w) = (Ok metadata, d1) →
  SchemasMatch (tm_Schema metadata) (bt_Schema table) = false →
  bq_Update client datasetID (bt_Name table) (bt_Schema table) (ETag metadata) d1
    = (Err updateErr, d2) →
  let name := bt_Name table in
  let fresh := mkTableMetadata name (bt_Schema table) "" in
  ∃ res d' calls,
    createOrUpdateTable client datasetID table w
      = (res, mkWorld d' (sent w ++ [CallMetadata datasetID name;
                                      CallUpdate datasetID name (bt_Schema table)
                                                 (ETag metadata)] ++ calls)) ∧
    (CallDelete datasetID name ∈ calls ↔ isCriticalError updateErr = true) ∧
    (isCriticalError updateErr = true →
       (strings.Contains updateErr "changed type" = true ∨
        strings.Contains updateErr "is missing" = true) ∧
       match bq_Delete client datasetID name d2 with
       | (Some delErr, d3) =>
           calls = [CallDelete datasetID name] ∧ d' = d3 ∧
           res = Some (Errorf "failed to delete table with bad schema" delErr)
       | (None, d3) =>
           calls = [CallDelete datasetID name; CallCreate datasetID name fresh] ∧
           d' = (bq_Create client datasetID name fresh d3).2 ∧
           res = Errorf "failed to recreate table with correct schema"
                   <$> (bq_Create client datasetID name fresh d3).1
       end) ∧
    (isCriticalError updateErr = false →
       calls = [] ∧ d' = d2 ∧
       res = Some (Errorf "failed to update table schema" updateErr)).
Proof.
  intros Hmeta Hdiff Hupd. cbv zeta.
  set (name := bt_Name table) in *.
  set (fresh := mkTableMetadata name (bt_Schema table) "").
  unfold createOrUpdateTable, bind, Metadata, Update, request.
  fold name. rewrite Hmeta, Hdiff. simpl. rewrite Hupd.
  destruct (isCriticalError updateErr) eqn:Hcrit.
  - unfold recreateTable, bind, Delete, Create, request, ret. simpl.
    fold name. fold fresh.
    assert (strings.Contains updateErr "changed type" = true ∨
            strings.Contains updateErr "is missing" = true) as Hwhy.
    { unfold isCriticalError in Hcrit.
      apply andb_prop in Hcrit as [Hcrit _]. by apply orb_prop in Hcrit. }
    destruct (bq_Delete client datasetID name d2) as [[delErr|] d3] eqn:Hdel.
    + exists (Some (Errorf "failed to delete table with bad schema" delErr)), d3,
        [CallDelete datasetID name].
      split; [by rewrite <- !app_assoc|].
      split; [split; [done|intros _; by apply list_elem_of_singleton]|].
      split; [by intros _|done].
    + destruct (bq_Create client datasetID name fresh d3) as [createErr d4] eqn:Hcre.
      exists (Errorf "failed to recreate table with correct schema" <$> createErr),
        d4, [CallDelete datasetID name; CallCreate datasetID name fresh].
      split.
      { simpl. rewrite Hcre. destruct createErr; simpl; by rewrite <- !app_assoc. }
      split; [split; [done|intros _; apply elem_of_cons; by left]|].
      split; [|done]. intros _. by split.
  - exists (Some (Errorf "failed to update table schema" updateErr)), d2, [].
    split; [by rewrite <- !app_assoc|].
    split; [split; [by intros ?%elem_of_nil|done]|]. split; [done|by intros _].
Qed.

End Reconciliation.

(** ** The extract-and-load cycle *)

Lemma append_cons x (a b : string) : String x a +:+ b = String x (a +:+ b).
Proof. reflexivity. Qed.

Lemma append_assoc (a b c : string) : (a +:+ b) +:+ c = a +:+ b +:+ c.
Proof.
  induction a as [|x a IH]; [reflexivity|]. by rewrite !append_cons, IH.
Qed.

Lemma append_empty_r (a : string) : a +:+ EmptyString = a.
Proof.
  induction a as [|x a IH]; [reflexivity|]. by rewrite append_cons, IH.
Qed.

Lemma incr_small (x : Z) : (- 2 ^ 63 ≤ x + 1 < 2 ^ 63)%Z → incr x = (x + 1)%Z.
Proof. intros Hx. unfold incr, int_wrap. rewrite Z.mod_small; lia. Qed.

Lemma isBuffered_inv f : isBuffered f → ∃ line, f = RowBuffered line.
Proof. destruct f; simpl; intros Hf; try done. by eexists. Qed.

Section ExtractLoad.
Context {libs : GoLibs} {D : Type} (client : Client D) {R : Type} {savable : Savable R}.

Lemma extractRows_cons (job : Job R) rows cur pending st :
  extractRows job rows (cur :: pending) st =
  match rowFate job rows cur with
  | RowSkipped =>
      extractRows job rows pending
        (mkLoopState (buf st) (totalRowsExtracted st) (incr (rowNum st))
                     (incr (skippedRows st)))
  | RowBuffered line =>
      extractRows job rows pending
        (mkLoopState (buf st +:+ line) (incr (totalRowsExtracted st))
                     (incr (rowNum st)) (skippedRows st))
  | RowEncodeFails err =>
      LoopReturn (Errorf "failed to write row to memory buffer" err)
  | RowPanics => LoopPanic
  end.
Proof.
  unfold rowFate. simpl. destruct (ParseFunc job rows cur) as [row|]; [|done].
  destruct (ToSaveable row) as [record|]; [|done].
  by destruct (Encode record).
Qed.

Lemma bufferedLines_cons (job : Job R) rows cur pending :
  bufferedLines job rows (cur :: pending) =
  match rowFate job rows cur with
  | RowBuffered line => line :: bufferedLines job rows pending
  | _ => bufferedLines job rows pending
  end.
Proof. unfold bufferedLines. simpl. by destruct (rowFate job rows cur). Qed.

Lemma parseFailures_cons (job : Job R) rows cur pending :
  parseFailures job rows (cur :: pending) =
  match rowFate job rows cur with
  | RowSkipped => S (parseFailures job rows pending)
  | _ => parseFailures job rows pending
  end.
Proof. unfold parseFailures. simpl. by destruct (rowFate job rows cur). Qed.

(** When no row aborts the task, the loop runs through all rows: the
    lines of the parsed rows are appended in order and the counters grow
    by the numbers of parsed and unparsed rows. *)
Lemma extractRows_runs_through (job : Job R) rows pending : ∀ st,
  Forall (fun cur => survives (rowFate job rows cur)) pending →
  (0 ≤ totalRowsExtracted st ≤ rowNum st)%Z →
  (0 ≤ skippedRows st ≤ rowNum st)%Z →
  (rowNum st + Z.of_nat (length pending) < 2 ^ 63)%Z →
  extractRows job rows pending st =
  LoopDone
    (mkLoopState
       (buf st +:+ joinLines (bufferedLines job rows pending))
       (totalRowsExtracted st + Z.of_nat (length (bufferedLines job rows pending)))
       (rowNum st + Z.of_nat (length pending))
       (skippedRows st + Z.of_nat (parseFailures job rows pending))).
Proof.
  induction pending as [|cur pending IH]; intros st Hall Ht Hs Hn.
  - destruct st; simpl. by rewrite append_empty_r, !Z.add_0_r.
  - apply Forall_cons in Hall as [Hcur Hall].
    rewrite extractRows_cons, bufferedLines_cons, parseFailures_cons.
    rewrite length_cons in Hn.
    destruct (rowFate job rows cur) as [|line| |]; try done.
    + rewrite IH; simpl; [|done|rewrite !incr_small; lia..].
      rewrite !incr_small by lia. f_equal. f_equal; lia.
    + rewrite IH; simpl; [|done|rewrite !incr_small; lia..].
      rewrite !incr_small by lia. rewrite append_assoc.
      f_equal. f_equal; lia.
Qed.

(** A row that parses but cannot be encoded ends the loop by [return]. *)
Lemma extractRows_encode_failure (job : Job R) rows before cur after err : ∀ st,
  Forall (fun cur => survives (rowFate job rows cur)) before →
  rowFate job rows cur = RowEncodeFails err →
  extractRows job rows (before ++ cur :: after) st =
  LoopReturn (Errorf "failed to write row to memory buffer" err).
Proof.
  induction before as [|b before IH]; intros st Hall Hcur.
  - simpl app. by rewrite extractRows_cons, Hcur.
  - apply Forall_cons in Hall as [Hb Hall].
    rewrite <- app_comm_cons, extractRows_cons.
    destruct (rowFate job rows b); try done; by apply IH.
Qed.

Lemma loadBuffer_first_request datasetID (job : Job R) payload w :
  ∃ calls,
    sent (loadBuffer client datasetID job payload w).2 =
    sent w ++ CallLoaderRun datasetID (BigQueryTable job) payload JSON WriteTruncate
           :: calls.
Proof.
  unfold loadBuffer, bind, LoaderRun, Wait, request, ret.
  destruct (bq_LoaderRun _ _ _ _ _ _ _) as [[bqJob|e] d1]; simpl.
  - destruct (bq_Wait _ _ _) as [[status|e] d2]; simpl.
    + exists [CallWait bqJob]. destruct (status_Err status); simpl;
        by rewrite <- app_assoc.
    + exists [CallWait bqJob]. by rewrite <- app_assoc.
  - by exists [].
Qed.

Lemma executeJob_after_extraction datasetID (job : Job R) db rows st w :
  db_QueryContext db (job_Query job) = Ok rows →
  extractRows job rows (delivered rows) extractionStart = LoopDone st →
  rowsErr rows = None →
  executeJob client datasetID job (Some db) w =
  if (totalRowsExtracted st =? 0)%Z then (Returned None, w)
  else let '(err, w') := loadBuffer client datasetID job (buf st) w in
       (Returned err, w').
Proof.
  intros Hq Hx He. unfold executeJob. rewrite Hq, Hx, He.
  destruct (totalRowsExtracted st =? 0)%Z; [done|].
  unfold bind, ret. by destruct (loadBuffer _ _ _ _ _).
Qed.

(** C3. A row that fails to parse is skipped: as long as no row aborts
    the task, the loop ends normally with the skip counter equal to the
    number of unparsed rows and the buffer holding the lines of all
    parsed rows in order.  A row that parses but cannot be encoded
    aborts the task with an error before anything is sent.  Of ten rows
    of which only the fifth fails to parse, nine are buffered, one is
    counted as skipped, and the load is submitted. *)
Theorem extraction_skips_unparsed_rows (datasetID : string) (job : Job R)
    (db : DB) (rows : Rows) (w : World D) :
  db_QueryContext db (job_Query job) = Ok rows →
  (Forall (fun cur => survives (rowFate job rows cur)) (delivered rows) →
   (Z.of_nat (length (delivered rows)) < 2 ^ 63)%Z →
   ∃ st, extractRows job rows (delivered rows) extractionStart = LoopDone st ∧
         skippedRows st = Z.of_nat (parseFailures job rows (delivered rows)) ∧
         totalRowsExtracted st
           = Z.of_nat (length (bufferedLines job rows (delivered rows))) ∧
         buf st = joinLines (bufferedLines job rows (delivered rows))) ∧
  (∀ before cur after err,
     delivered rows = before ++ cur :: after →
     Forall (fun cur => survives (rowFate job rows cur)) before →
     rowFate job rows cur = RowEncodeFails err →
     executeJob client datasetID job (Some db) w =
     (Returned (Some (Errorf "failed to write row to memory buffer" err)), w)) ∧
  (length (delivered rows) = 10 →
   (∀ i cur, delivered rows !! i = Some cur →
      (i = 4 → rowFate job rows cur = RowSkipped) ∧
      (i ≠ 4 → isBuffered (rowFate job rows cur))) →
   rowsErr rows = None →
   ∃ st calls res d',
     extractRows job rows (delivered rows) extractionStart = LoopDone st ∧
     length (bufferedLines job rows (delivered rows)) = 9 ∧
     buf st = joinLines (bufferedLines job rows (delivered rows)) ∧
     totalRowsExtracted st = 9%Z ∧ skippedRows st = 1%Z ∧
     executeJob client datasetID job (Some db) w
       = (Returned res,
          mkWorld d' (sent w ++
            CallLoaderRun datasetID (BigQueryTable job) (buf st) JSON WriteTruncate
            :: calls))).
Proof.
  intros Hq. split; [|split].
  - intros Hall Hlen. eexists. split.
    + apply extractRows_runs_through; simpl; [done|lia..].
    + simpl. repeat split; lia.
  - intros before cur after err Hrows Hall Hcur.
    unfold executeJob. rewrite Hq, Hrows.
    by rewrite (extractRows_encode_failure _ _ _ _ _ _ _ Hall Hcur).
  - intros Hlen Hfate Herr.
    destruct (delivered rows)
      as [|r0 [|r1 [|r2 [|r3 [|r4 [|r5 [|r6 [|r7 [|r8 [|r9 [|]]]]]]]]]]]
      eqn:Hd;
      simpl in Hlen; try lia.
    destruct (isBuffered_inv _ (proj2 (Hfate 0 r0 eq_refl) ltac:(lia))) as [l0 H0'].
    destruct (isBuffered_inv _ (proj2 (Hfate 1 r1 eq_refl) ltac:(lia))) as [l1 H1'].
    destruct (isBuffered_inv _ (proj2 (Hfate 2 r2 eq_refl) ltac:(lia))) as [l2 H2'].
    destruct (isBuffered_inv _ (proj2 (Hfate 3 r3 eq_refl) ltac:(lia))) as [l3 H3'].
    pose proof (proj1 (Hfate 4 r4 eq_refl) eq_refl) as H4'.
    destruct (isBuffered_inv _ (proj2 (Hfate 5 r5 eq_refl) ltac:(lia))) as [l5 H5'].
    destruct (isBuffered_inv _ (proj2 (Hfate 6 r6 eq_refl) ltac:(lia))) as [l6 H6'].
    destruct (isBuffered_inv _ (proj2 (Hfate 7 r7 eq_refl) ltac:(lia))) as [l7 H7'].
    destruct (isBuffered_inv _ (proj2 (Hfate 8 r8 eq_refl) ltac:(lia))) as [l8 H8'].
    destruct (isBuffered_inv _ (proj2 (Hfate 9 r9 eq_refl) ltac:(lia))) as [l9 H9'].
    clear Hfate.
    assert (Forall (fun cur => survives (rowFate job rows cur))
              [r0; r1; r2; r3; r4; r5; r6; r7; r8; r9]) as Hall.
    { repeat (apply Forall_cons; split); try apply Forall_nil.
      all: by rewrite ?H0', ?H1', ?H2', ?H3', ?H4', ?H5', ?H6', ?H7', ?H8', ?H9'. }
    pose proof (extractRows_runs_through job rows _ extractionStart Hall
                  ltac:(simpl; lia) ltac:(simpl; lia) ltac:(simpl; lia)) as Hx.
    assert (length (bufferedLines job rows [r0; r1; r2; r3; r4; r5; r6; r7; r8; r9]) = 9
            ∧ parseFailures job rows [r0; r1; r2; r3; r4; r5; r6; r7; r8; r9] = 1)
      as [Hnine Hone].
    { split.
      - repeat (rewrite bufferedLines_cons;
                rewrite ?H0', ?H1', ?H2', ?H3', ?H4', ?H5', ?H6', ?H7', ?H8', ?H9').
        done.
      - repeat (rewrite parseFailures_cons;
                rewrite ?H0', ?H1', ?H2', ?H3', ?H4', ?H5', ?H6', ?H7', ?H8', ?H9').
        done. }
    rewrite Hnine, Hone in Hx.
    match type of Hx with _ = LoopDone ?s => set (st := s) in * end.
    destruct (loadBuffer_first_request datasetID job (buf st) w) as [calls Hcalls].
    destruct (loadBuffer client datasetID job (buf st) w) as [res [d' tr]] eqn:Hload.
    simpl in Hcalls. subst tr.
    exists st, calls, res, d'. split; [exact Hx|]. split; [exact Hnine|].
    split; [reflexivity|]. split; [reflexivity|]. split; [reflexivity|].
    rewrite (executeJob_after_extraction datasetID job db rows st w Hq);
      [|by rewrite Hd|done].
    replace (totalRowsExtracted st =? 0)%Z with false by reflexivity.
    by rewrite Hload.
Qed.

(** C4. When extraction ends with no row extracted, the task returns
    nil and the world is as before: nothing was sent to the destination,
    in particular no load, and the destination is unchanged.  This is
    the case whenever the query answers, every delivered row (if any)
    fails to parse and the cursor reports no error.  In every execution
    whatsoever the world changes only if extraction ended normally with
    at least one row extracted. *)
Theorem executeJob_zero_rows_no_load (datasetID : string) (job : Job R)
    (db : DB) (rows : Rows) (w : World D) :
  db_QueryContext db (job_Query job) = Ok rows →
  rowsErr rows = None →
  (∀ st, extractRows job rows (delivered rows) extractionStart = LoopDone st →
         totalRowsExtracted st = 0%Z →
         executeJob client datasetID job (Some db) w = (Returned None, w)) ∧
  (Forall (fun cur => rowFate job rows cur = RowSkipped) (delivered rows) →
   (Z.of_nat (length (delivered rows)) < 2 ^ 63)%Z →
   executeJob client datasetID job (Some db) w = (Returned None, w)) ∧
  (∀ db' : option DB,
     (executeJob client datasetID job db' w).2 = w ∨
     ∃ d rows' st,
       db' = Some d ∧ db_QueryContext d (job_Query job) = Ok rows' ∧
       extractRows job rows' (delivered rows') extractionStart = LoopDone st ∧
       rowsErr rows' = None ∧ totalRowsExtracted st ≠ 0%Z).
Proof.
  intros Hq Herr. split; [|split].
  - intros st Hx Hzero.
    rewrite (executeJob_after_extraction datasetID job db rows st w Hq Hx Herr).
    by rewrite Hzero.
  - intros Hall Hlen.
    assert (Forall (fun cur => survives (rowFate job rows cur)) (delivered rows))
      as Hsurv.
    { eapply Forall_impl; [exact Hall|]. by intros cur ->. }
    pose proof (extractRows_runs_through job rows _ extractionStart Hsurv
                  ltac:(simpl; lia) ltac:(simpl; lia) ltac:(simpl; lia)) as Hx.
    rewrite (executeJob_after_extraction datasetID job db rows _ w Hq Hx Herr).
    simpl. replace (bufferedLines job rows (delivered rows)) with (@nil string);
      [done|].
    clear -Hall. induction Hall as [|cur l Hc _ IH]; [done|].
    by rewrite bufferedLines_cons, Hc.
  - intros [d|]; [|by left]. unfold executeJob.
    destruct (db_QueryContext d (job_Query job)) as [rows'|] eqn:Hq'; [|by left].
    destruct (extractRows job rows' (delivered rows') extractionStart)
      as [st| |] eqn:Hx; [|by left..].
    destruct (rowsErr rows') eqn:Herr'; [by left|].
    destruct (Z.eqb_spec (totalRowsExtracted st) 0) as [Hz|Hnz]; [by left|].
    right. by exists d, rows', st.
Qed.

End ExtractLoad.

(** * The model run on the sample data *)

(** A [Forall] over an explicit list of rows, each instance by evaluation. *)
Ltac every_row_by_computation :=
  repeat (apply Forall_cons; split; [by vm_compute|]); by apply Forall_nil.

Example Contains_examples :
  strings.Contains sampleUpdateError "changed type" = true ∧
  strings.Contains sampleUpdateError "invalid" = true ∧
  strings.Contains "Error 404: Not found: Table" "Not found" = true ∧
  strings.Contains "quota exceeded" "invalid" = false ∧
  strings.Contains "abc" "" = true.
Proof. by vm_compute. Qed.

Example Split_examples :
  strings.Split "VARCHAR(50)" "("%char = ["VARCHAR"; "50)"] ∧
  strings.Split "INT" "("%char = ["INT"] ∧
  strings.Split "" "("%char = [""] ∧
  strings.Split "a((b" "("%char = ["a"; ""; "b"].
Proof. by vm_compute. Qed.

(** The schema of the end-to-end scenario. *)
Example InferSchemaFromMySQL_scenario :
  @InferSchemaFromMySQL sampleLibs (sampleDB []) sampleQuery = Ok sampleSchema.
Proof. by vm_compute. Qed.

(** The end-to-end scenario: three rows, one with a NULL name, synced to
    an absent table. *)
Example runTableJob_scenario :
  let run :=
    runTableJob (libs:=sampleLibs) (sampleClient sampleUpdateError)
      (fun _ => Ok (sampleDB [sampleRow 1; sampleRow 2; sampleRow 3]))
      sampleConfig sampleSource "accounts" (mkWorld ∅ []) in
  run.1 = Returned None ∧
  dest run.2 = {[ "accounts" := sampleSchema ]} ∧
  ∃ payload,
    sent run.2 =
    [CallMetadata "dataset" "accounts";
     CallCreate "dataset" "accounts" (mkTableMetadata "accounts" sampleSchema "");
     CallLoaderRun "dataset" "accounts" payload JSON WriteTruncate;
     CallWait (mkBQJob "job-1")].
Proof.
  split; [reflexivity|]. split; [reflexivity|].
  eexists. reflexivity.
Qed.

(** A type name with a blank before the parenthesis is not recognized. *)
Example mysqlTypeToBigQueryType_blank_before_suffix :
  @mysqlTypeToBigQueryType sampleLibs "INT (11)" = "STRING".
Proof. by vm_compute. Qed.

(** Without unique names the comparison depends on the order of its
    arguments. *)
Example SchemasMatch_duplicate_names :
  SchemasMatch [mkField "a" "STRING" false; mkField "a" "STRING" false]
               [mkField "a" "STRING" false; mkField "b" "STRING" false] = false ∧
  SchemasMatch [mkField "a" "STRING" false; mkField "b" "STRING" false]
               [mkField "a" "STRING" false; mkField "a" "STRING" false] = true.
Proof. by vm_compute. Qed.

Lemma mysqlTypeToBigQueryType_total_mapping_witness :
  @mysqlTypeToBigQueryType sampleLibs "varchar" = "STRING" ∧
  @mysqlTypeToBigQueryType sampleLibs "Decimal(10,2)" = "FLOAT" ∧
  @mysqlTypeToBigQueryType sampleLibs "GEOMETRY" = "STRING".
Proof.
  destruct (@mysqlTypeToBigQueryType_total_mapping sampleLibs)
    as (Hknown & Hunknown & _).
  split; [|split].
  - apply (Hknown "VARCHAR" "STRING" "varchar"); [compute_done | reflexivity].
  - apply (Hknown "DECIMAL" "FLOAT" "Decimal"); [compute_done | reflexivity].
  - apply Hunknown. compute_done.
Defined.

Lemma SchemasMatch_symmetric_order_insensitive_witness :
  SchemasMatch sampleSchema (reverse sampleSchema) = true ∧
  SchemasMatch (reverse sampleSchema) sampleSchema = true ∧
  SchemasMatch sampleSchema
    (mkField "email" "STRING" false :: drop 1 sampleSchema) = false ∧
  SchemasMatch sampleSchema
    (mkField "id" "STRING" true :: drop 1 sampleSchema) = false.
Proof.
  assert (uniqueNames sampleSchema) as Hu by compute_done.
  assert (uniqueNames (reverse sampleSchema)) as Hr by compute_done.
  destruct (SchemasMatch_symmetric_order_insensitive sampleSchema
              (reverse sampleSchema) Hu Hr) as (Hsym & Hperm & _ & _).
  destruct (SchemasMatch_symmetric_order_insensitive sampleSchema
              (mkField "email" "STRING" false :: drop 1 sampleSchema) Hu
              ltac:(compute_done)) as (_ & _ & Hname & _).
  destruct (SchemasMatch_symmetric_order_insensitive sampleSchema
              (mkField "id" "STRING" true :: drop 1 sampleSchema) Hu
              ltac:(compute_done)) as (_ & _ & _ & Htype).
  assert (SchemasMatch sampleSchema (reverse sampleSchema) = true) as Hfwd.
  { apply Hperm. unfold nameTypePairs. apply fmap_Permutation.
    symmetry. apply reverse_Permutation. }
  split; [exact Hfwd|]. split; [by rewrite <- Hsym|]. split.
  - apply (Hname "email"). right. split; compute_done.
  - apply (Htype (mkField "id" "INTEGER" true) (mkField "id" "STRING" true));
      [compute_done | compute_done | reflexivity | compute_done].
Defined.

Lemma InferSchemaFromMySQL_required_only_if_asserted_witness :
  ∃ rows cols,
    db_Query (sampleDB []) sampleQuery = Ok rows ∧ ColumnTypes rows = Ok cols ∧
    ∀ i field, sampleSchema !! i = Some field →
      ∃ col, cols !! i = Some col ∧
        (Required field = true ↔ Nullable col = (false, true)) ∧
        ((Nullable col).2 = false → Required field = false).
Proof.
  apply (@InferSchemaFromMySQL_required_only_if_asserted sampleLibs
           (sampleDB []) sampleQuery sampleSchema).
  by vm_compute.
Defined.

Lemma InferSchemaFromMySQL_fields_follow_columns_witness :
  ∃ rows cols,
    db_Query (sampleDB []) sampleQuery = Ok rows ∧ ColumnTypes rows = Ok cols ∧
    length sampleSchema = length cols ∧
    Name <$> sampleSchema = ct_Name <$> cols ∧
    ∀ i col, cols !! i = Some col →
      ∃ field, sampleSchema !! i = Some field ∧ Name field = ct_Name col.
Proof.
  apply (@InferSchemaFromMySQL_fields_follow_columns sampleLibs
           (sampleDB []) sampleQuery sampleSchema).
  by vm_compute.
Defined.

Lemma ParseDynamicRow_record_keys_witness :
  ∃ cols record,
    Columns (sampleRows []) = Ok cols ∧ ToSaveable parsedSample = Some record ∧
    dom record = list_to_set cols.
Proof.
  apply (@ParseDynamicRow_record_keys sampleLibs (sampleRows []) (sampleRow 1)
           "2006-01-02" parsedSample).
  by vm_compute.
Defined.

Lemma convertValueToInterface_rules_witness :
  @convertValueToInterface sampleLibs (AnyInt64 5) "2006-01-02" = AnyInt64 5 ∧
  Values parsedSample !! 2
    = Some (AnyString (@time_Format sampleLibs (mkTime 0 0 "UTC") "2006-01-02")) ∧
  ∃ record, ToSaveable parsedSample = Some record ∧
            record !! "name" = Some AnyNil ∧
            record !! "created_at" = Some (AnyString "2006-01-02").
Proof.
  destruct (@convertValueToInterface_rules sampleLibs "2006-01-02")
    as (_ & _ & Hpass & _ & Hrow & Hjob).
  split; [by apply Hpass|].
  split.
  { apply (Hjob sampleConfig sampleSource "accounts"
             "SELECT * FROM finance_db.accounts" (sampleRows []) (sampleRow 1)
             parsedSample eq_refl ltac:(by vm_compute) 2 (mkTime 0 0 "UTC")).
    reflexivity. }
  destruct (Hrow (sampleRows []) (sampleRow 1) parsedSample ltac:(by vm_compute))
    as (cols & record & Hc & Hs & Hk).
  inversion Hc; subst cols; clear Hc.
  exists record. split; [exact Hs|]. split.
  - apply (Hk 1 "name" AnyNil); [reflexivity | reflexivity | reflexivity |].
    compute_done.
  - apply (Hk 2 "created_at" (AnyTime (mkTime 0 0 "UTC")));
      [reflexivity | reflexivity | compute_done].
Defined.

Lemma recreate_only_on_critical_update_error_witness :
  (∃ res d' calls,
     createOrUpdateTable (sampleClient sampleUpdateError) "dataset" sampleTable
       sampleWorld
     = (res, mkWorld d' ([CallMetadata "dataset" "accounts";
                          CallUpdate "dataset" "accounts" sampleSchema "etag"]
                         ++ calls)) ∧
     calls = [CallDelete "dataset" "accounts";
              CallCreate "dataset" "accounts"
                (mkTableMetadata "accounts" sampleSchema "")]) ∧
  (∃ res d' calls,
     createOrUpdateTable (sampleClient "rateLimitExceeded") "dataset" sampleTable
       sampleWorld
     = (res, mkWorld d' ([CallMetadata "dataset" "accounts";
                          CallUpdate "dataset" "accounts" sampleSchema "etag"]
                         ++ calls)) ∧
     calls = [] ∧
     res = Some (Errorf "failed to update table schema" "rateLimitExceeded")).
Proof.
  split.
  - destruct (recreate_only_on_critical_update_error
                (sampleClient sampleUpdateError) "dataset" sampleTable sampleWorld
                (mkTableMetadata "accounts" [mkField "id" "STRING" false] "etag")
                sampleUpdateError (dest sampleWorld) (dest sampleWorld)
                eq_refl eq_refl eq_refl)
      as (res & d' & calls & Hrun & _ & Hcrit & _).
    exists res, d', calls. split; [exact Hrun|].
    destruct (Hcrit eq_refl) as [_ Hpath].
    exact (proj1 Hpath).
  - destruct (recreate_only_on_critical_update_error
                (sampleClient "rateLimitExceeded") "dataset" sampleTable sampleWorld
                (mkTableMetadata "accounts" [mkField "id" "STRING" false] "etag")
                "rateLimitExceeded" (dest sampleWorld) (dest sampleWorld)
                eq_refl eq_refl eq_refl)
      as (res & d' & calls & Hrun & _ & _ & Hplain).
    exists res, d', calls. split; [exact Hrun|].
    destruct (Hplain eq_refl) as (Hcalls & _ & Hres). by split.
Defined.

Lemma extraction_skips_unparsed_rows_witness :
  let job := sampleJob in
  let client := sampleClient sampleUpdateError in
  (∃ st, extractRows (libs:=sampleLibs) job (sampleRows tenRows) tenRows
           extractionStart = LoopDone st ∧
         skippedRows st = 1%Z ∧ totalRowsExtracted st = 9%Z) ∧
  executeJob (libs:=sampleLibs) client "dataset" job
    (Some (sampleDB [sampleRow 1; nanRow; sampleRow 3])) sampleWorld
  = (Returned (Some (Errorf "failed to write row to memory buffer"
                            "json: unsupported value: NaN")), sampleWorld) ∧
  (∃ st calls res d',
     length (bufferedLines (libs:=sampleLibs) job (sampleRows tenRows) tenRows)
     = 9 ∧
     buf st
     = joinLines (bufferedLines (libs:=sampleLibs) job (sampleRows tenRows)
                    tenRows) ∧
     executeJob (libs:=sampleLibs) client "dataset" job
       (Some (sampleDB tenRows)) sampleWorld
     = (Returned res,
        mkWorld d' (CallLoaderRun "dataset" "accounts" (buf st) JSON WriteTruncate
                    :: calls))).
Proof.
  intros job client.
  destruct (extraction_skips_unparsed_rows (libs:=sampleLibs) client
              "dataset" job (sampleDB tenRows) (sampleRows tenRows)
              sampleWorld eq_refl) as (Hskip & _ & Hten).
  destruct (extraction_skips_unparsed_rows (libs:=sampleLibs) client
              "dataset" job (sampleDB [sampleRow 1; nanRow; sampleRow 3])
              (sampleRows [sampleRow 1; nanRow; sampleRow 3])
              sampleWorld eq_refl) as (_ & Hfatal & _).
  split; [|split].
  - destruct Hskip as (st & Hx & Hs & Ht & _).
    + every_row_by_computation.
    + by vm_compute.
    + exists st. split; [exact Hx|]. split; [exact Hs | exact Ht].
  - apply (Hfatal [sampleRow 1] nanRow [sampleRow 3]).
    + reflexivity.
    + every_row_by_computation.
    + by vm_compute.
  - destruct Hten as (st & calls & res & d' & _ & Hnine & Hbuf & _ & _ & Hrun).
    + reflexivity.
    + intros i cur Hi.
      do 10 (destruct i as [|i];
             [inversion Hi; subst cur; split; intros Hidx;
              first [discriminate Hidx | by elim Hidx | by vm_compute]|]).
      inversion Hi.
    + reflexivity.
    + exists st, calls, res, d'. split; [exact Hnine|]. split; [exact Hbuf|].
      exact Hrun.
Defined.

Lemma executeJob_zero_rows_no_load_witness :
  let client := sampleClient sampleUpdateError in
  executeJob (libs:=sampleLibs) client "dataset" sampleJob
    (Some (sampleDB [brokenRow; brokenRow])) sampleWorld
  = (Returned None, sampleWorld) ∧
  executeJob (libs:=sampleLibs) client "dataset" sampleJob
    (Some (sampleDB [])) sampleWorld
  = (Returned None, sampleWorld).
Proof.
  intros client.
  destruct (executeJob_zero_rows_no_load (libs:=sampleLibs) client
              "dataset" sampleJob (sampleDB [brokenRow; brokenRow])
              (sampleRows [brokenRow; brokenRow]) sampleWorld eq_refl eq_refl)
    as (_ & Hunparsed & _).
  destruct (executeJob_zero_rows_no_load (libs:=sampleLibs) client
              "dataset" sampleJob (sampleDB []) (sampleRows []) sampleWorld
              eq_refl eq_refl) as (Hzero & _ & _).
  split.
  - apply Hunparsed.
    + every_row_by_computation.
    + by vm_compute.
  - apply (Hzero extractionStart); reflexivity.
Defined.

(** * Further properties of the code *)

(** ** Substring tests *)

Lemma HasPrefix_occurs s prefix :
  strings.HasPrefix s prefix = true ↔ ∃ after, s = prefix +:+ after.
Proof.
  revert s. induction prefix as [|p prefix IH]; intros s.
  - destruct s; simpl; (split; [intros _; by eexists | done]).
  - destruct s as [|c s]; simpl.
    + split; [done | intros [after Habs]; inversion Habs].
    + rewrite andb_true_iff, IH. split.
      * intros [Hc [after ->]]. apply Ascii.eqb_eq in Hc as ->. by exists after.
      * intros [after Heq]. rewrite append_cons in Heq. inversion Heq; subst.
        split; [apply Ascii.eqb_refl | by exists after].
Qed.

Lemma Contains_occurs s sub :
  strings.Contains s sub = true ↔ occursIn sub s.
Proof.
  unfold occursIn. induction s as [|c s IH].
  - change (strings.Contains EmptyString sub)
      with (strings.HasPrefix EmptyString sub || false).
    rewrite orb_false_r, HasPrefix_occurs. split.
    + intros [after ->]. by exists EmptyString, after.
    + intros (before & after & Heq). destruct before; [by exists after|].
      rewrite append_cons in Heq. inversion Heq.
  - change (strings.Contains (String c s) sub)
      with (strings.HasPrefix (String c s) sub || strings.Contains s sub).
    rewrite orb_true_iff, HasPrefix_occurs, IH. split.
    + intros [[after ->]|(before & after & ->)].
      * by exists EmptyString, after.
      * by exists (String c before), after.
    + intros (before & after & Heq). destruct before as [|b before].
      * left. by exists after.
      * right. rewrite append_cons in Heq. inversion Heq; subst.
        by exists before, after.
Qed.

(** X1. An update error is classified as critical exactly when its message
    has "invalid" as a substring and also "changed type" or "is missing",
    wherever they stand in the message. *)
Theorem isCriticalError_substrings (updateErr : error) :
  isCriticalError updateErr = true ↔
  (occursIn "changed type" updateErr ∨ occursIn "is missing" updateErr) ∧
  occursIn "invalid" updateErr.
Proof.
  unfold isCriticalError.
  by rewrite andb_true_iff, orb_true_iff, !Contains_occurs.
Qed.

(** ** Type mapping *)

(** X2. Whatever follows the first opening parenthesis of a type name
    plays no part: a name without parenthesis and the same name followed
    by a parenthesis and anything are mapped alike, known or not. *)
Theorem mysqlTypeToBigQueryType_ignores_suffix {libs : GoLibs} (s params : string) :
  all_bytes (fun c => negb (Ascii.eqb c "("%char)) s = true →
  mysqlTypeToBigQueryType (s +:+ "(" +:+ params) = mysqlTypeToBigQueryType s.
Proof.
  intros Hs. unfold mysqlTypeToBigQueryType, switchSubject.
  change (s +:+ "(" +:+ params) with (s +:+ String "("%char params).
  by rewrite (Split_at_sep _ _ _ Hs), (Split_no_sep _ _ Hs).
Qed.

(** ** Schema comparison *)

Lemma typesByName_snoc (s : list FieldSchema) field :
  typesByName (s ++ [field]) = <[Name field := Type_ field]> (typesByName s).
Proof. unfold typesByName. by rewrite foldl_snoc. Qed.

Lemma lastTypeOf_snoc (s : list FieldSchema) field n :
  lastTypeOf (s ++ [field]) n =
  if decide (Name field = n) then Some (Type_ field) else lastTypeOf s n.
Proof.
  unfold lastTypeOf. rewrite filter_app, filter_cons, filter_nil.
  destruct (decide (Name field = n)).
  - by rewrite last_snoc.
  - by rewrite app_nil_r.
Qed.

Lemma typesByName_last (s : list FieldSchema) n :
  typesByName s !! n = lastTypeOf s n.
Proof.
  induction s as [|field s IH] using rev_ind; [done|].
  rewrite typesByName_snoc, lastTypeOf_snoc, lookup_insert.
  by destruct (decide (Name field = n)).
Qed.

(** X3. For arbitrary slices, repeated names included, [SchemasMatch]
    reports equal exactly when both have the same length and every field
    of the second has the type of the last field of that name in the
    first. *)
Theorem SchemasMatch_last_field_decides (s1 s2 : Schema) :
  SchemasMatch s1 s2 = true ↔
  length s1 = length s2 ∧
  ∀ field, field ∈ s2 → lastTypeOf s1 (Name field) = Some (Type_ field).
Proof.
  rewrite SchemasMatch_true, Forall_forall.
  split; intros [Hlen Hall]; (split; [done|]); intros field Hin.
  - rewrite <- typesByName_last. by apply Hall.
  - rewrite typesByName_last. by apply Hall.
Qed.

Lemma typesByName_of_pairs (s : list FieldSchema) :
  typesByName s = typesOfPairs (nameTypePairs s).
Proof.
  unfold typesByName, typesOfPairs, nameTypePairs.
  generalize (∅ : gmap string FieldType).
  induction s as [|field s IH]; intros m; simpl; [done|]. by rewrite IH.
Qed.

Lemma SchemasMatch_by_pairs (a b : list FieldSchema) :
  SchemasMatch a b = true ↔
  length (nameTypePairs a) = length (nameTypePairs b) ∧
  Forall (fun p : string * FieldType =>
            typesOfPairs (nameTypePairs a) !! p.1 = Some p.2)
         (nameTypePairs b).
Proof.
  rewrite SchemasMatch_true, <- typesByName_of_pairs.
  unfold nameTypePairs. by rewrite !length_fmap, Forall_fmap.
Qed.

(** X4. The comparison reads names and types only: two pairs of schemas
    with the same (name, type) lists compare alike, whatever their required
    flags. *)
Theorem SchemasMatch_reads_names_and_types (s1 s2 s1' s2' : Schema) :
  nameTypePairs s1 = nameTypePairs s1' →
  nameTypePairs s2 = nameTypePairs s2' →
  SchemasMatch s1 s2 = SchemasMatch s1' s2'.
Proof.
  intros H1 H2.
  destruct (SchemasMatch s1 s2) eqn:E; symmetry.
  - apply SchemasMatch_by_pairs. rewrite <- H1, <- H2.
    by apply SchemasMatch_by_pairs.
  - apply not_true_is_false. intros E'. apply SchemasMatch_by_pairs in E'.
    rewrite <- H1, <- H2 in E'. apply SchemasMatch_by_pairs in E'. congruence.
Qed.

(** X5. On schemas with unique field names the comparison is reflexive and
    transitive. *)
Theorem SchemasMatch_reflexive_transitive (s1 s2 s3 : Schema) :
  uniqueNames s1 → uniqueNames s2 → uniqueNames s3 →
  SchemasMatch s1 s1 = true ∧
  (SchemasMatch s1 s2 = true → SchemasMatch s2 s3 = true →
   SchemasMatch s1 s3 = true).
Proof.
  intros Hu1 Hu2 Hu3. split.
  - by apply SchemasMatch_pairs.
  - intros H12%SchemasMatch_pairs H23%SchemasMatch_pairs; try done.
    apply SchemasMatch_pairs; [done..|]. by rewrite H12.
Qed.

(** ** Schema inference, continued *)

Lemma mysqlTypeToBigQueryType_semantic {libs : GoLibs} s :
  mysqlTypeToBigQueryType s ∈ semanticTypes.
Proof.
  unfold mysqlTypeToBigQueryType, semanticTypes.
  repeat match goal with
  | |- context [case_of ?t ?l] => destruct (case_of t l)
  end; set_solver.
Qed.

Lemma fieldOf_Name {libs : GoLibs} col : Name (fieldOf col) = ct_Name col.
Proof. unfold fieldOf. by destruct (Nullable col). Qed.

Lemma fieldOf_Type {libs : GoLibs} col :
  Type_ (fieldOf col) = mysqlTypeToBigQueryType (DatabaseTypeName col).
Proof. unfold fieldOf. by destruct (Nullable col). Qed.

(** X6. In an inferred schema the type of every field is the mapping of
    the native type name of its column, hence one of the six semantic
    types. *)
Theorem InferSchemaFromMySQL_field_types {libs : GoLibs} db query
    (schema : Schema) :
  InferSchemaFromMySQL db query = Ok schema →
  ∃ rows cols, db_Query db query = Ok rows ∧ ColumnTypes rows = Ok cols ∧
    ∀ i field, schema !! i = Some field →
      ∃ col, cols !! i = Some col ∧
             Type_ field = mysqlTypeToBigQueryType (DatabaseTypeName col) ∧
             Type_ field ∈ semanticTypes.
Proof.
  intros (rows & cols & Hq & Hc & ->)%InferSchemaFromMySQL_Ok.
  exists rows, cols. split; [done|]. split; [done|].
  intros i field Hi. rewrite list_lookup_fmap in Hi.
  destruct (cols !! i) as [col|]; [|done]. inversion Hi; subst.
  exists col. split; [done|]. rewrite fieldOf_Type.
  split; [done | apply mysqlTypeToBigQueryType_semantic].
Qed.

(** X7. Inference reads the column metadata only: two queries whose
    results carry the same column types infer alike, whatever rows they
    deliver, none included. *)
Theorem InferSchemaFromMySQL_reads_metadata_only {libs : GoLibs}
    db query rows db' query' rows' :
  db_Query db query = Ok rows → db_Query db' query' = Ok rows' →
  ColumnTypes rows = ColumnTypes rows' →
  InferSchemaFromMySQL db query = InferSchemaFromMySQL db' query'.
Proof.
  intros Hq Hq' Hc. unfold InferSchemaFromMySQL. by rewrite Hq, Hq', Hc.
Qed.

(** X8. When the column names of the result set are pairwise different,
    the inferred schema has unique field names and compares equal to
    itself and to each of its reorderings. *)
Theorem InferSchemaFromMySQL_schema_well_formed {libs : GoLibs} db query
    rows cols (schema : Schema) :
  db_Query db query = Ok rows → ColumnTypes rows = Ok cols →
  NoDup (ct_Name <$> cols) →
  InferSchemaFromMySQL db query = Ok schema →
  uniqueNames schema ∧ SchemasMatch schema schema = true ∧
  ∀ other : Schema, other ≡ₚ schema →
    SchemasMatch other schema = true ∧ SchemasMatch schema other = true.
Proof.
  intros Hq Hc Hnd (rows' & cols' & Hq' & Hc' & ->)%InferSchemaFromMySQL_Ok.
  rewrite Hq in Hq'. inversion Hq'; subst rows'.
  rewrite Hc in Hc'. inversion Hc'; subst cols'.
  assert (uniqueNames (fieldOf <$> cols)) as Hu.
  { unfold uniqueNames. rewrite <- list_fmap_compose.
    erewrite list_fmap_ext; [exact Hnd|]. intros i col _. apply fieldOf_Name. }
  split; [done|]. split; [by apply SchemasMatch_pairs|].
  intros other Hperm.
  assert (uniqueNames other) as Hu'.
  { unfold uniqueNames in *. by rewrite Hperm. }
  split; apply SchemasMatch_pairs; try done; unfold nameTypePairs;
    by rewrite Hperm.
Qed.

(** ** Row parsing, continued *)

Lemma ToSaveable_from_None names : ∀ i (values : list any) acc,
  i ≤ length values →
  ToSaveable_from i names values acc = None ↔ length values < i + length names.
Proof.
  induction names as [|c names IH]; intros i values acc Hi; simpl.
  - split; [done | lia].
  - destruct (values !! i) as [v|] eqn:Hv.
    + apply lookup_lt_Some in Hv as Hlt. rewrite IH by lia. lia.
    + apply lookup_ge_None in Hv. split; [lia | done].
Qed.

(** X9. [ToSaveable] panics exactly when the row has fewer values than
    column names. *)
Theorem ToSaveable_panics_iff_short (r : DynamicRow) :
  ToSaveable r = None ↔ length (Values r) < length (ColumnNames r).
Proof.
  unfold ToSaveable, DynamicRow_Savable.
  rewrite ToSaveable_from_None by lia. lia.
Qed.

(** X10. With pairwise different column names and at least as many values
    as names, the record has one entry per column and looking a column up
    gives back the value at its position. *)
Theorem ToSaveable_lookup_by_position (r : DynamicRow) :
  NoDup (ColumnNames r) → length (ColumnNames r) ≤ length (Values r) →
  ∃ record, ToSaveable r = Some record ∧
            size record = length (ColumnNames r) ∧
            ∀ i colName, ColumnNames r !! i = Some colName →
                         record !! colName = Values r !! i.
Proof.
  intros Hnd Hlen.
  destruct (ToSaveable_from_spec (ColumnNames r) 0 (Values r) ∅ ltac:(lia))
    as (record & Hs & Hdom & Hlk).
  exists record. split; [done|]. split.
  - rewrite <- size_dom, Hdom, dom_empty_L, (left_id_L ∅ (∪)).
    by apply size_list_to_set.
  - intros i colName Hi. apply (Hlk i colName Hi).
    intros (j & Hj)%list_elem_of_lookup_1. rewrite lookup_drop in Hj.
    pose proof (NoDup_lookup _ _ _ _ Hnd Hi Hj). lia.
Qed.

Section ParsingMore.
Context {libs : GoLibs}.

(** X11. A row parses exactly when the column names are available, the
    scan meets no pending error and the row has as many values as there
    are columns; the date format plays no part in it.  The error otherwise
    is the cause wrapped as a column or scan failure. *)
Theorem ParseDynamicRow_succeeds_iff rows cur dateFormat :
  ((∃ row, ParseDynamicRow rows cur dateFormat = Ok row) ↔
   ∃ cols, Columns rows = Ok cols ∧ scanErr cur = None ∧
           length (lastcols cur) = length cols) ∧
  (∀ err, Columns rows = Err err →
     ParseDynamicRow rows cur dateFormat = Err (Errorf "failed to get columns" err)) ∧
  (∀ cols err, Columns rows = Ok cols → scanErr cur = Some err →
     ParseDynamicRow rows cur dateFormat = Err (Errorf "failed to scan row" err)).
Proof.
  split; [|split].
  - split.
    + intros [row (cols & Hc & Hs & Hlen & _)%ParseDynamicRow_Ok]. by exists cols.
    + intros (cols & Hc & Hs & Hlen). unfold ParseDynamicRow, Scan.
      rewrite Hc, Hs. rewrite decide_True by done. by eexists.
  - intros err Hc. unfold ParseDynamicRow. by rewrite Hc.
  - intros cols err Hc Hs. unfold ParseDynamicRow, Scan. by rewrite Hc, Hs.
Qed.

Lemma convertValueToInterface_jsonSafe v dateFormat :
  jsonSafe (convertValueToInterface v dateFormat) = true.
Proof. by destruct v. Qed.

Lemma convertValueToInterface_idempotent v dateFormat dateFormat' :
  convertValueToInterface (convertValueToInterface v dateFormat) dateFormat'
  = convertValueToInterface v dateFormat.
Proof. by destruct v. Qed.

(** X12. A parsed row holds one value per column name, none of them a
    byte slice or a time, and converting it again, with whatever format,
    changes nothing. *)
Theorem ParseDynamicRow_values_converted rows cur dateFormat row :
  ParseDynamicRow rows cur dateFormat = Ok row →
  length (Values row) = length (ColumnNames row) ∧
  Forall (fun v => jsonSafe v = true) (Values row) ∧
  ∀ dateFormat',
    (fun v => convertValueToInterface v dateFormat') <$> Values row = Values row.
Proof.
  intros (cols & Hc & _ & Hlen & Hn & Hv)%ParseDynamicRow_Ok.
  rewrite Hv, Hn. split; [by rewrite length_fmap|]. split.
  - apply Forall_fmap, Forall_forall. intros v _.
    apply convertValueToInterface_jsonSafe.
  - intros dateFormat'. rewrite <- list_fmap_compose.
    apply list_fmap_ext. intros i v _. simpl.
    apply convertValueToInterface_idempotent.
Qed.

End ParsingMore.

(** ** Table reconciliation, continued *)

Section ReconciliationMore.
Context {D : Type} (client : Client D).

(** The outcome of [createOrUpdateTable] with the requests it adds. *)
Lemma createOrUpdateTable_run datasetID (table : BQTable) (w : World D) :
  ∃ res d' calls,
    createOrUpdateTable client datasetID table w
      = (res, mkWorld d' (sent w ++ calls)) ∧
    reconcileTraces datasetID (bt_Name table) (bt_Schema table) calls ∧
    (res = None → CallDelete datasetID (bt_Name table) ∈ calls →
     last calls = Some (CallCreate datasetID (bt_Name table)
                          (mkTableMetadata (bt_Name table) (bt_Schema table) ""))).
Proof.
  unfold createOrUpdateTable, recreateTable, bind, ret, Metadata, Create,
    Update, Delete, request, reconcileTraces.
  set (name := bt_Name table). set (schema := bt_Schema table).
  destruct (bq_Metadata client datasetID name (dest w)) as [[metadata|err] d1];
    simpl.
  - destruct (SchemasMatch (tm_Schema metadata) schema); simpl.
    + eexists _, _, [_]. split; [done|]. split; [by left|].
      intros _ Hin. apply list_elem_of_singleton in Hin. discriminate.
    + destruct (bq_Update client datasetID name schema (ETag metadata) d1)
        as [[updated|updateErr] d2]; simpl.
      * eexists _, _, [_; _]. split; [by rewrite <- app_assoc|].
        split; [right; right; exists (ETag metadata); by left|].
        intros _ Hin. repeat (apply elem_of_cons in Hin as [Hin|Hin]; [done|]).
        by apply elem_of_nil in Hin.
      * destruct (isCriticalError updateErr); simpl.
        -- destruct (bq_Delete client datasetID name d2) as [[delErr|] d3]; simpl.
           ++ eexists _, _, [_; _; _]. split; [by rewrite <- !app_assoc|].
              split; [right; right; exists (ETag metadata); right; by left|].
              done.
           ++ destruct (bq_Create client datasetID name
                          (mkTableMetadata name schema "") d3)
                as [[createErr|] d4]; simpl.
              ** eexists _, _, [_; _; _; _]. split; [by rewrite <- !app_assoc|].
                 split; [right; right; exists (ETag metadata); right; by right|].
                 done.
              ** eexists _, _, [_; _; _; _]. split; [by rewrite <- !app_assoc|].
                 split; [right; right; exists (ETag metadata); right; by right|].
                 done.
        -- eexists _, _, [_; _]. split; [by rewrite <- !app_assoc|].
           split; [right; right; exists (ETag metadata); by left|]. done.
  - destruct (strings.Contains err "Not found"); simpl.
    + destruct (bq_Create client datasetID name (mkTableMetadata name schema "") d1)
        as [[createErr|] d2]; simpl.
      * eexists _, _, [_; _]. split; [by rewrite <- !app_assoc|].
        split; [right; by left|]. done.
      * eexists _, _, [_; _]. split; [by rewrite <- !app_assoc|].
        split; [right; by left|].
        intros _ Hin. repeat (apply elem_of_cons in Hin as [Hin|Hin]; [done|]).
        by apply elem_of_nil in Hin.
    + eexists _, _, [_]. split; [done|]. split; [by left|]. done.
Qed.

(** X13. Whatever the destination answers, one reconciliation sends
    between one and four requests, all about the one table: the lookup
    first; then either nothing, or a create, or an update possibly followed
    by a delete, itself possibly followed by a create.  Every create and
    update carries the schema asked for. *)
Theorem createOrUpdateTable_requests datasetID (table : BQTable) (w : World D) :
  ∃ calls,
    sent (createOrUpdateTable client datasetID table w).2 = sent w ++ calls ∧
    reconcileTraces datasetID (bt_Name table) (bt_Schema table) calls.
Proof.
  destruct (createOrUpdateTable_run datasetID table w)
    as (res & d' & calls & Hrun & Hshape & _).
  exists calls. by rewrite Hrun.
Qed.

(** X14. A reconciliation that returns nil has not left the table deleted:
    if it sent a delete, its last request is the create of the table with
    the schema asked for. *)
Theorem createOrUpdateTable_success_not_deleted datasetID (table : BQTable)
    (w : World D) calls :
  (createOrUpdateTable client datasetID table w).1 = None →
  sent (createOrUpdateTable client datasetID table w).2 = sent w ++ calls →
  CallDelete datasetID (bt_Name table) ∈ calls →
  last calls = Some (CallCreate datasetID (bt_Name table)
                       (mkTableMetadata (bt_Name table) (bt_Schema table) "")).
Proof.
  destruct (createOrUpdateTable_run datasetID table w)
    as (res & d' & calls' & Hrun & _ & Hlast).
  rewrite Hrun. simpl. intros -> Heq%app_inv_head. subst calls'. by apply Hlast.
Qed.

(** X15. When the lookup fails: if the message has "Not found" in it the
    table is created with the schema asked for and the result is that of
    the create; otherwise the lookup error is returned wrapped and nothing
    else is sent. *)
Theorem createOrUpdateTable_on_lookup_error datasetID (table : BQTable)
    (w : World D) err d1 :
  bq_Metadata client datasetID (bt_Name table) (dest w) = (Err err, d1) →
  let name := bt_Name table in
  let fresh := mkTableMetadata name (bt_Schema table) "" in
  (occursIn "Not found" err →
   createOrUpdateTable client datasetID table w
   = (Errorf "failed to create table" <$> (bq_Create client datasetID name fresh d1).1,
      mkWorld (bq_Create client datasetID name fresh d1).2
              (sent w ++ [CallMetadata datasetID name;
                          CallCreate datasetID name fresh]))) ∧
  (¬ occursIn "Not found" err →
   createOrUpdateTable client datasetID table w
   = (Some (Errorf "failed to get table metadata" err),
      mkWorld d1 (sent w ++ [CallMetadata datasetID name]))).
Proof.
  intros Hmeta. cbv zeta.
  unfold createOrUpdateTable, bind, ret, Metadata, Create, request.
  rewrite Hmeta. simpl. split.
  - intros Hnf%Contains_occurs. rewrite Hnf. simpl.
    destruct (bq_Create client datasetID (bt_Name table) _ d1) as [[e|] d2];
      simpl; by rewrite <- app_assoc.
  - intros Hnf. destruct (strings.Contains err "Not found") eqn:Hc; [|done].
    by apply Contains_occurs in Hc.
Qed.

(** X16. When the table exists with the fields asked for, in whatever
    order and whatever their required flags, reconciliation sends the
    lookup only and returns nil. *)
Theorem createOrUpdateTable_noop_when_fields_agree datasetID (table : BQTable)
    (w : World D) metadata d1 :
  bq_Metadata client datasetID (bt_Name table) (dest w) = (Ok metadata, d1) →
  uniqueNames (bt_Schema table) →
  nameTypePairs (tm_Schema metadata) ≡ₚ nameTypePairs (bt_Schema table) →
  createOrUpdateTable client datasetID table w
  = (None, mkWorld d1 (sent w ++ [CallMetadata datasetID (bt_Name table)])).
Proof.
  intros Hmeta Hu Hperm.
  assert (uniqueNames (tm_Schema metadata)) as Hu'.
  { unfold uniqueNames in *. rewrite names_of_pairs in *. by rewrite Hperm. }
  unfold createOrUpdateTable, bind, ret, Metadata, request.
  rewrite Hmeta. simpl.
  by rewrite (proj2 (SchemasMatch_pairs _ _ Hu' Hu) Hperm).
Qed.

End ReconciliationMore.

(** ** The extract-and-load cycle, continued *)

Section ExtractLoadMore.
Context {libs : GoLibs} {D : Type} (client : Client D).

Lemma world_eta (w : World D) : mkWorld (dest w) (sent w ++ []) = w.
Proof. destruct w. simpl. by rewrite app_nil_r. Qed.

(** The outcome of [loadBuffer] with the requests it adds. *)
Lemma loadBuffer_run {R} datasetID (job : Job R) payload (w : World D) :
  let submit :=
    CallLoaderRun datasetID (BigQueryTable job) payload JSON WriteTruncate in
  ∃ res d' calls,
    loadBuffer client datasetID job payload w = (res, mkWorld d' (sent w ++ calls)) ∧
    (calls = [submit] ∨ ∃ bqJob, calls = [submit; CallWait bqJob]) ∧
    (res = None →
     ∃ bqJob d1 status,
       calls = [submit; CallWait bqJob] ∧
       bq_LoaderRun client datasetID (BigQueryTable job) payload JSON
         WriteTruncate (dest w) = (Ok bqJob, d1) ∧
       bq_Wait client bqJob d1 = (Ok status, d') ∧
       status_Err status = None).
Proof.
  cbv zeta. unfold loadBuffer, bind, ret, LoaderRun, Wait, request.
  destruct (bq_LoaderRun _ _ _ _ _ _ _) as [[bqJob|e] d1] eqn:Hrun; simpl.
  - destruct (bq_Wait _ _ _) as [[status|e] d2] eqn:Hwait; simpl.
    + destruct (status_Err status) eqn:Hst; simpl;
        (eexists _, _, [_; _]; split; [by rewrite <- app_assoc|];
         split; [right; by eexists|]).
      * done.
      * intros _. by exists bqJob, d1, status.
    + eexists _, _, [_; _]. split; [by rewrite <- app_assoc|].
      split; [right; by eexists|]. done.
  - eexists _, _, [_]. split; [done|]. split; [by left|]. done.
Qed.

Lemma loadTraces_of_submission ds table payload calls :
  (calls = [CallLoaderRun ds table payload JSON WriteTruncate] ∨
   ∃ bqJob, calls = [CallLoaderRun ds table payload JSON WriteTruncate;
                     CallWait bqJob]) →
  loadTraces ds table calls.
Proof.
  intros [->|[bqJob ->]]; right; exists payload; [by left|right; by exists bqJob].
Qed.

Section AnyJob.
Context {R : Type} {savable : Savable R}.

(** The outcome of [executeJob] with the requests it adds. *)
Lemma executeJob_run datasetID (job : Job R) db (w : World D) :
  ∃ o d' calls,
    executeJob client datasetID job db w = (o, mkWorld d' (sent w ++ calls)) ∧
    loadTraces datasetID (BigQueryTable job) calls ∧
    (o = Returned None →
     calls = [] ∨
     ∃ payload bqJob d1 status,
       calls = [CallLoaderRun datasetID (BigQueryTable job) payload JSON
                  WriteTruncate; CallWait bqJob] ∧
       bq_LoaderRun client datasetID (BigQueryTable job) payload JSON
         WriteTruncate (dest w) = (Ok bqJob, d1) ∧
       bq_Wait client bqJob d1 = (Ok status, d') ∧
       status_Err status = None).
Proof.
  assert (∀ o, ∃ o' d' calls,
            (o, w) = (o', mkWorld d' (sent w ++ calls)) ∧
            loadTraces datasetID (BigQueryTable job) calls ∧
            (o' = Returned None → calls = [] ∨
               ∃ payload bqJob d1 status,
                 calls = [CallLoaderRun datasetID (BigQueryTable job) payload JSON
                            WriteTruncate; CallWait bqJob] ∧
                 bq_LoaderRun client datasetID (BigQueryTable job) payload JSON
                   WriteTruncate (dest w) = (Ok bqJob, d1) ∧
                 bq_Wait client bqJob d1 = (Ok status, d') ∧
                 status_Err status = None)) as Hquiet.
  { intros o. exists o, (dest w), []. rewrite world_eta.
    split; [done|]. split; [by left|]. intros _. by left. }
  unfold executeJob, ret. destruct db as [db|]; [|apply Hquiet].
  destruct (db_QueryContext db (job_Query job)) as [rows|]; [|apply Hquiet].
  destruct (extractRows job rows (delivered rows) extractionStart)
    as [st| |]; [|apply Hquiet..].
  destruct (rowsErr rows); [apply Hquiet|].
  destruct (totalRowsExtracted st =? 0)%Z; [apply Hquiet|].
  unfold bind.
  destruct (loadBuffer_run datasetID job (buf st) w)
    as (res & d' & calls & Hrun & Hshape & Hok).
  rewrite Hrun. exists (Returned res), d', calls.
  split; [done|]. split; [by eapply loadTraces_of_submission|].
  intros Hres. inversion Hres; subst res. right.
  destruct (Hok eq_refl) as (bqJob & d1 & status & H1 & H2 & H3 & H4).
  by exists (buf st), bqJob, d1, status.
Qed.

(** X17. Whatever the source and the destination answer, one execution
    sends nothing, or one load submission, or one submission followed by
    one wait; the submission is always a JSON load into the table of the
    job that replaces the table's contents. *)
Theorem executeJob_requests datasetID (job : Job R) db (w : World D) :
  ∃ calls,
    sent (executeJob client datasetID job db w).2 = sent w ++ calls ∧
    loadTraces datasetID (BigQueryTable job) calls.
Proof.
  destruct (executeJob_run datasetID job db w) as (o & d' & calls & Hrun & Hs & _).
  exists calls. by rewrite Hrun.
Qed.

(** X18. An execution that returns nil has either sent nothing or has
    submitted the load, waited for it and found no error in its status:
    success is never reported for a load that was refused, not awaited, or
    that failed. *)
Theorem executeJob_success_means_loaded datasetID (job : Job R) db
    (w : World D) calls :
  (executeJob client datasetID job db w).1 = Returned None →
  sent (executeJob client datasetID job db w).2 = sent w ++ calls →
  calls = [] ∨
  ∃ payload bqJob d1 status,
    calls = [CallLoaderRun datasetID (BigQueryTable job) payload JSON
               WriteTruncate; CallWait bqJob] ∧
    bq_LoaderRun client datasetID (BigQueryTable job) payload JSON
      WriteTruncate (dest w) = (Ok bqJob, d1) ∧
    bq_Wait client bqJob d1
      = (Ok status, dest (executeJob client datasetID job db w).2) ∧
    status_Err status = None.
Proof.
  destruct (executeJob_run datasetID job db w)
    as (o & d' & calls' & Hrun & _ & Hok).
  rewrite Hrun. simpl. intros -> Heq%app_inv_head. subst calls'.
  by apply Hok.
Qed.

Lemma extractRows_done_survived (job : Job R) rows pending : ∀ st st',
  extractRows job rows pending st = LoopDone st' →
  Forall (fun cur => survives (rowFate job rows cur)) pending.
Proof.
  induction pending as [|cur pending IH]; intros st st' Hx; [by apply Forall_nil|].
  rewrite extractRows_cons in Hx. apply Forall_cons.
  destruct (rowFate job rows cur); try done; split; try done; by eapply IH.
Qed.

(** X19. When the loop ends normally, every row has been counted once:
    the row number equals the number of rows delivered and is the sum of
    the rows extracted and the rows skipped. *)
Theorem extractRows_counts_every_row (job : Job R) rows st :
  (Z.of_nat (length (delivered rows)) < 2 ^ 63)%Z →
  extractRows job rows (delivered rows) extractionStart = LoopDone st →
  rowNum st = Z.of_nat (length (delivered rows)) ∧
  (totalRowsExtracted st + skippedRows st)%Z = rowNum st ∧
  (0 ≤ totalRowsExtracted st)%Z ∧ (0 ≤ skippedRows st)%Z.
Proof.
  intros Hlen Hx.
  pose proof (extractRows_done_survived _ _ _ _ _ Hx) as Hall.
  rewrite (extractRows_runs_through job rows _ extractionStart Hall) in Hx;
    [|simpl; lia..].
  inversion Hx; subst st; clear Hx. simpl.
  assert (length (bufferedLines job rows (delivered rows))
          + parseFailures job rows (delivered rows)
          = length (delivered rows)) as Hsum.
  { clear Hlen. induction Hall as [|cur l Hc _ IH]; [done|].
    rewrite bufferedLines_cons, parseFailures_cons.
    destruct (rowFate job rows cur); try done; simpl; lia. }
  lia.
Qed.

Lemma extractRows_done_buf (job : Job R) rows pending : ∀ st st',
  extractRows job rows pending st = LoopDone st' →
  buf st' = buf st +:+ joinLines (bufferedLines job rows pending).
Proof.
  induction pending as [|cur pending IH]; intros st st' Hx.
  - inversion Hx; subst. simpl. by rewrite append_empty_r.
  - rewrite extractRows_cons in Hx. rewrite bufferedLines_cons.
    destruct (rowFate job rows cur); try done.
    + by rewrite (IH _ _ Hx).
    + rewrite (IH _ _ Hx). simpl. by rewrite append_assoc.
Qed.

Lemma bufferedLines_terminated (job : Job R) rows pending :
  Forall (fun line => ∃ text, line = text +:+ String "010"%char EmptyString)
         (bufferedLines job rows pending).
Proof.
  induction pending as [|cur pending IH]; [by apply Forall_nil|].
  rewrite bufferedLines_cons. destruct (rowFate job rows cur) eqn:Hf; try done.
  apply Forall_cons. split; [|done].
  unfold rowFate in Hf. destruct (ParseFunc job rows cur); [|done].
  destruct (ToSaveable v); [|done]. unfold Encode in Hf.
  destruct (json_Marshal g) as [text|]; [|done]. inversion Hf. by exists text.
Qed.

(** X27. Whenever a load is submitted, its payload is newline-delimited:
    one line per row that parsed, in the order the rows were delivered,
    each the encoding of the record of its row followed by a line feed;
    skipped rows leave no trace in it. *)
Theorem executeJob_payload_lines datasetID (job : Job R) db (w : World D)
    ds table payload format disposition :
  CallLoaderRun ds table payload format disposition
    ∈ drop (length (sent w)) (sent (executeJob client datasetID job db w).2) →
  ∃ d rows,
    db = Some d ∧ db_QueryContext d (job_Query job) = Ok rows ∧
    payload = joinLines (bufferedLines job rows (delivered rows)) ∧
    Forall (fun line => ∃ text, line = text +:+ String "010"%char EmptyString)
           (bufferedLines job rows (delivered rows)).
Proof.
  unfold executeJob, ret. intros Hin.
  assert (∀ o : Outcome,
            CallLoaderRun ds table payload format disposition
              ∈ drop (length (sent w)) (sent (o, w).2) → False) as Hquiet.
  { intros o. simpl. rewrite drop_all. by intros ?%elem_of_nil. }
  destruct db as [d|]; [|by apply Hquiet in Hin].
  destruct (db_QueryContext d (job_Query job)) as [rows|] eqn:Hq;
    [|by apply Hquiet in Hin].
  destruct (extractRows job rows (delivered rows) extractionStart)
    as [st| |] eqn:Hx; [|by apply Hquiet in Hin..].
  destruct (rowsErr rows); [by apply Hquiet in Hin|].
  destruct (totalRowsExtracted st =? 0)%Z; [by apply Hquiet in Hin|].
  exists d, rows. split; [done|]. split; [done|].
  split; [|apply bufferedLines_terminated].
  apply extractRows_done_buf in Hx.
  change (buf st = joinLines (bufferedLines job rows (delivered rows))) in Hx.
  rewrite <- Hx. revert Hin. unfold bind.
  destruct (loadBuffer_run datasetID job (buf st) w)
    as (res & d' & calls & Hrun & Hshape & _).
  rewrite Hrun. simpl. rewrite drop_app_length.
  destruct Hshape as [->|[bqJob ->]].
  - intros Hin%list_elem_of_singleton. by inversion Hin.
  - intros Hin. apply elem_of_cons in Hin as [Hin|Hin]; [by inversion Hin|].
    apply list_elem_of_singleton in Hin. discriminate.
Qed.

Lemma extractRows_no_panic (job : Job R) rows pending : ∀ st,
  (∀ cur, rowFate job rows cur ≠ RowPanics) →
  extractRows job rows pending st ≠ LoopPanic.
Proof.
  induction pending as [|cur pending IH]; intros st Hnp; [done|].
  rewrite extractRows_cons. specialize (Hnp cur) as Hcur.
  destruct (rowFate job rows cur); try done; by apply IH.
Qed.

End AnyJob.

Lemma tableJob_rowFate cfg source table query rows cur :
  rowFate (tableJob cfg source table query) rows cur ≠ RowPanics.
Proof.
  unfold rowFate. simpl.
  destruct (ParseDynamicRow rows cur (DateFormat cfg)) as [row|] eqn:Hp; [|done].
  apply ParseDynamicRow_Ok in Hp as (cols & _ & _ & Hlen & Hn & Hv).
  destruct (ToSaveable_from_spec (ColumnNames row) 0 (Values row) ∅)
    as (record & Hs & _).
  { rewrite Hn, Hv, length_fmap. lia. }
  unfold ToSaveable, DynamicRow_Savable. rewrite Hs.
  by destruct (Encode record).
Qed.

(** The outcome of [runTableJob] with the requests it adds. *)
Lemma runTableJob_run sql_Open cfg source table (w : World D) :
  let ds := BigQueryDatasetID cfg in
  let query := "SELECT * FROM " +:+ DBName source +:+ "." +:+ table in
  ∃ o d' rc lc,
    runTableJob client sql_Open cfg source table w
      = (o, mkWorld d' (sent w ++ rc ++ lc)) ∧
    o ≠ Panicked ∧
    loadTraces ds table lc ∧
    (rc = [] ∧ lc = [] ∨
     ∃ db schema,
       sql_Open (DSN source) = Ok db ∧
       InferSchemaFromMySQL db (query +:+ " LIMIT 1") = Ok schema ∧
       reconcileTraces ds table schema rc ∧
       (lc ≠ [] →
        (createOrUpdateTable client ds (mkBQTable table schema) w).1 = None)).
Proof.
  cbv zeta. unfold runTableJob, ret.
  set (ds := BigQueryDatasetID cfg).
  set (query := "SELECT * FROM " +:+ DBName source +:+ "." +:+ table).
  assert (∀ e, ∃ o d' rc lc,
            (Returned (Some e), w) = (o, mkWorld d' (sent w ++ rc ++ lc)) ∧
            o ≠ Panicked ∧ loadTraces ds table lc ∧
            (rc = [] ∧ lc = [] ∨
             ∃ db schema,
               sql_Open (DSN source) = Ok db ∧
               InferSchemaFromMySQL db (query +:+ " LIMIT 1") = Ok schema ∧
               reconcileTraces ds table schema rc ∧
               (lc ≠ [] →
                (createOrUpdateTable client ds (mkBQTable table schema) w).1
                = None))) as Hquiet.
  { intros e. exists (Returned (Some e)), (dest w), [], []. simpl.
    rewrite world_eta. split; [done|]. split; [done|]. split; [by left|].
    by left. }
  destruct (sql_Open (DSN source)) as [db|] eqn:Hopen; [|apply Hquiet].
  destruct (InferSchemaFromMySQL db (query +:+ " LIMIT 1")) as [schema|] eqn:Hinf;
    [|apply Hquiet].
  unfold bind.
  destruct (createOrUpdateTable_run client ds (mkBQTable table schema) w)
    as (res & d1 & rc & Hrec & Hshape & _).
  rewrite Hrec. simpl in Hshape.
  destruct res as [err|].
  - exists (Returned (Some (Errorf "failed to create/update BigQuery table" err))),
      d1, rc, []. rewrite app_nil_r.
    split; [done|]. split; [done|]. split; [by left|].
    right. exists db, schema. by repeat split.
  - destruct (executeJob_run ds (tableJob cfg source table query) (Some db)
                (mkWorld d1 (sent w ++ rc)))
      as (o & d2 & lc & Hexec & Hload & _).
    rewrite Hexec. simpl in Hexec, Hload |- *.
    assert (o ≠ Panicked) as Hnp.
    { intros ->. revert Hexec. unfold executeJob, ret, bind.
      destruct (db_QueryContext db _) as [rows|]; [|done].
      destruct (extractRows _ rows (delivered rows) extractionStart)
        as [st| |] eqn:Hx.
      - destruct (rowsErr rows); [done|].
        destruct (totalRowsExtracted st =? 0)%Z; [done|].
        by destruct (loadBuffer _ _ _ _ _).
      - done.
      - exfalso. revert Hx. apply extractRows_no_panic.
        intros cur. apply tableJob_rowFate. }
    destruct o as [[err|]|]; [| |done].
    + eexists _, d2, rc, lc. rewrite <- app_assoc. split; [done|].
      split; [done|]. split; [done|]. right. exists db, schema.
      repeat split; try done. intros _. by rewrite Hrec.
    + eexists _, d2, rc, lc. rewrite <- app_assoc. split; [done|].
      split; [done|]. split; [done|]. right. exists db, schema.
      repeat split; try done. intros _. by rewrite Hrec.
Qed.

(** X20. One table job never panics: the rows it parses always have one
    value per column name, so building their records stays in range. *)
Theorem runTableJob_never_panics sql_Open cfg source table (w : World D) :
  (runTableJob client sql_Open cfg source table w).1 ≠ Panicked.
Proof.
  destruct (runTableJob_run sql_Open cfg source table w)
    as (o & d' & rc & lc & Hrun & Hnp & _).
  by rewrite Hrun.
Qed.

(** X21. The requests of one table job are those of one reconciliation
    followed by those of one load, all about the table of the job in the
    configured dataset.  Nothing is sent unless the source database opens
    and answers the schema query, and a load is submitted only after the
    reconciliation towards the inferred schema returned nil. *)
Theorem runTableJob_requests sql_Open cfg source table (w : World D) :
  let ds := BigQueryDatasetID cfg in
  let query := "SELECT * FROM " +:+ DBName source +:+ "." +:+ table in
  ∃ rc lc,
    sent (runTableJob client sql_Open cfg source table w).2 = sent w ++ rc ++ lc ∧
    loadTraces ds table lc ∧
    (rc = [] ∧ lc = [] ∨
     ∃ db schema,
       sql_Open (DSN source) = Ok db ∧
       InferSchemaFromMySQL db (query +:+ " LIMIT 1") = Ok schema ∧
       reconcileTraces ds table schema rc ∧
       (lc ≠ [] →
        (createOrUpdateTable client ds (mkBQTable table schema) w).1 = None)).
Proof.
  cbv zeta.
  destruct (runTableJob_run sql_Open cfg source table w)
    as (o & d' & rc & lc & Hrun & _ & Hload & Hrest).
  exists rc, lc. by rewrite Hrun.
Qed.

End ExtractLoadMore.

(** ** The configuration loader *)

Lemma isASCII_all_bytes s :
  strings.isASCII s = all_bytes (fun c => strings.byte_lt c 128) s.
Proof.
  unfold strings.isASCII. induction s as [|c s IH]; simpl; [done|].
  by rewrite IH.
Qed.

Lemma all_bytes_rev_app p s1 s2 :
  all_bytes p (String.rev_app s1 s2) = all_bytes p s1 && all_bytes p s2.
Proof.
  revert s2. induction s1 as [|c s1 IH]; intros s2; simpl; [done|].
  rewrite IH. simpl. by rewrite andb_assoc, (andb_comm (all_bytes p s1)).
Qed.

Lemma all_bytes_rev p s : all_bytes p (String.rev s) = all_bytes p s.
Proof. unfold String.rev. rewrite all_bytes_rev_app. simpl. apply andb_true_r. Qed.

Lemma rev_app_empty s1 s2 :
  String.rev_app s1 s2 = EmptyString → s1 = EmptyString ∧ s2 = EmptyString.
Proof.
  revert s2. induction s1 as [|c s1 IH]; intros s2; simpl; [done|].
  intros [_ Habs]%IH. discriminate.
Qed.

Lemma rev_empty s : String.rev s = EmptyString ↔ s = EmptyString.
Proof.
  split; [|by intros ->]. unfold String.rev. by intros [? _]%rev_app_empty.
Qed.

(** On pure ASCII the scanning loop never meets a byte >= 0x80; it leaves
    nothing exactly when every byte is a space. *)
Lemma skipSpace_ascii s :
  all_bytes (fun c => strings.byte_lt c 128) s = true →
  ∃ rest, config.skipSpace s = inl rest ∧
          all_bytes (fun c => strings.byte_lt c 128) rest = true ∧
          (rest = EmptyString ↔ all_bytes config.asciiSpace s = true) ∧
          (all_bytes config.asciiSpace rest = true → rest = EmptyString).
Proof.
  induction s as [|c s IH]; simpl.
  - intros _. by exists EmptyString.
  - intros [Hc Hs]%andb_prop. rewrite Hc. simpl.
    destruct (config.asciiSpace c) eqn:Hsp; simpl.
    + by apply IH.
    + exists (String c s). split; [done|]. split; [simpl; by rewrite Hc, Hs|].
      split; [done|]. simpl. by rewrite Hsp.
Qed.

Section ConfigLoader.
Context {libs : config.Libs}.

(** For a pure-ASCII string, [TrimSpace] leaves nothing exactly when every
    byte is one of tab, line feed, vertical tab, form feed, carriage return
    and blank. *)
Lemma TrimSpace_ascii_empty s :
  strings.isASCII s = true →
  config.TrimSpace s = EmptyString ↔ all_bytes config.asciiSpace s = true.
Proof.
  rewrite isASCII_all_bytes. intros Hs.
  destruct (skipSpace_ascii s Hs) as (rest & Hskip & Hrest & Hempty & Hstop).
  unfold config.TrimSpace. rewrite Hskip.
  destruct (skipSpace_ascii (String.rev rest)) as (tser & Hskip' & _ & Hempty' & _).
  { by rewrite all_bytes_rev. }
  rewrite Hskip', rev_empty, Hempty', all_bytes_rev, <- Hempty.
  split; [apply Hstop | by intros ->].
Qed.

Lemma requiredVars_resolved env :
  config.requiredVars env = list_to_map (resolvedVars env).
Proof. reflexivity. Qed.

Lemma resolvedVars_keys env : (resolvedVars env).*1 = config.requiredDefaults.*1.
Proof. reflexivity. Qed.

Lemma requiredDefaults_NoDup : NoDup config.requiredDefaults.*1.
Proof. compute_done. Qed.

Lemma requiredDefaults_not_blank key dflt :
  (key, dflt) ∈ config.requiredDefaults →
  dflt ≠ EmptyString ∧ config.TrimSpace dflt ≠ EmptyString.
Proof.
  unfold config.requiredDefaults. intros Hin.
  repeat (apply elem_of_cons in Hin as [Hin|Hin];
          [inversion Hin; subst; split; [done | by vm_compute]|]).
  by apply elem_of_nil in Hin.
Qed.

Lemma getEnv_cases env key dflt :
  (config.Getenv env key = EmptyString ∧ config.getEnv env key dflt = dflt) ∨
  (config.Getenv env key ≠ EmptyString ∧
   config.getEnv env key dflt = config.Getenv env key).
Proof.
  unfold config.getEnv.
  destruct (String.eqb_spec (config.Getenv env key) EmptyString) as [Heq|Hne];
    simpl; [left | right]; done.
Qed.

Lemma missingVars_fold (l : list (string * string)) : ∀ acc,
  foldl (fun missingVars '(key, value) =>
           if String.eqb (config.TrimSpace value) EmptyString
           then missingVars ++ [key]
           else missingVars) acc l
  = acc ++ blankKeys l.
Proof.
  unfold blankKeys.
  induction l as [|[key value] l IH]; intros acc; simpl.
  - by rewrite app_nil_r.
  - rewrite IH, filter_cons. simpl.
    destruct (String.eqb_spec (config.TrimSpace value) EmptyString) as [Heq|Hne].
    + rewrite decide_True by done. simpl. by rewrite <- app_assoc.
    + by rewrite decide_False by done.
Qed.

Lemma missingVarsOf_blankKeys (vars : gmap string string) :
  config.missingVarsOf vars = blankKeys (config.range_order vars).
Proof. unfold config.missingVarsOf. by rewrite missingVars_fold. Qed.

Lemma blankKeys_cons key value (l : list (string * string)) :
  blankKeys ((key, value) :: l) =
  if decide (config.TrimSpace value = EmptyString) then key :: blankKeys l
  else blankKeys l.
Proof.
  unfold blankKeys. rewrite filter_cons. simpl.
  by destruct (decide (config.TrimSpace value = EmptyString)).
Qed.

Lemma blankKeys_getEnv env (l : list (string * string)) :
  (∀ key dflt, (key, dflt) ∈ l → config.TrimSpace dflt ≠ EmptyString) →
  blankKeys ((fun kd : string * string =>
                (kd.1, config.getEnv env kd.1 kd.2)) <$> l)
  = filter (setToBlank env) l.*1.
Proof.
  induction l as [|[key dflt] l IH]; intros Hd; [done|].
  rewrite !fmap_cons, blankKeys_cons, filter_cons. simpl.
  rewrite IH by (intros k d Hin; apply (Hd k d); by right).
  assert (config.TrimSpace (config.getEnv env key dflt) = EmptyString
          ↔ setToBlank env key) as Hiff.
  { unfold setToBlank.
    destruct (getEnv_cases env key dflt) as [[H0 ->]|[H1 ->]]; [|tauto].
    split; [|by intros [? _]]. intros Hb. exfalso.
    apply (Hd key dflt); [by left | done]. }
  destruct (decide (config.TrimSpace (config.getEnv env key dflt) = EmptyString))
    as [Hb|Hb].
  - by rewrite decide_True by (by apply Hiff).
  - by rewrite decide_False by (by rewrite <- Hiff).
Qed.

Lemma blankKeys_resolved env :
  blankKeys (resolvedVars env)
  = filter (setToBlank env) config.requiredDefaults.*1.
Proof.
  apply blankKeys_getEnv. intros key dflt Hin.
  by destruct (requiredDefaults_not_blank key dflt Hin).
Qed.

Lemma missingVars_Permutation env :
  config.missingVarsOf (config.requiredVars env)
  ≡ₚ filter (setToBlank env) config.requiredDefaults.*1.
Proof.
  rewrite missingVarsOf_blankKeys, <- blankKeys_resolved.
  unfold blankKeys. apply fmap_Permutation, filter_Permutation.
  rewrite config.range_order_entries, requiredVars_resolved.
  apply map_to_list_to_map. rewrite resolvedVars_keys.
  apply requiredDefaults_NoDup.
Qed.

Lemma requiredVars_total env key dflt :
  (key, dflt) ∈ config.requiredDefaults →
  config.requiredVars env !!! key = config.getEnv env key dflt.
Proof.
  intros Hin. apply lookup_total_correct. rewrite requiredVars_resolved.
  apply elem_of_list_to_map.
  - rewrite resolvedVars_keys. apply requiredDefaults_NoDup.
  - unfold resolvedVars. apply list_elem_of_fmap. by exists (key, dflt).
Qed.

Lemma LoadConfig_outcome (env : gmap string string) :
  ((∃ err, config.LoadConfig env = Err err) ↔
   ∃ key, key ∈ config.requiredDefaults.*1 ∧ setToBlank env key) ∧
  (∀ err, config.LoadConfig env = Err err →
     ∃ missingVars,
       err = "missing required environment variables: " +:+ config.fmt_v missingVars ∧
       missingVars ≡ₚ filter (setToBlank env) config.requiredDefaults.*1).
Proof.
  pose proof (missingVars_Permutation env) as Hperm.
  unfold config.LoadConfig.
  destruct (config.missingVarsOf (config.requiredVars env)) as [|k missing] eqn:Hm;
    simpl.
  - split.
    + split; [by intros [err ?]|]. intros (key & Hin & Hblank). exfalso.
      assert (key ∈ filter (setToBlank env) config.requiredDefaults.*1) as Hf.
      { by apply list_elem_of_filter. }
      rewrite <- Hperm in Hf. by apply elem_of_nil in Hf.
    + by intros err.
  - split.
    + split; [|by eexists]. intros _.
      assert (k ∈ filter (setToBlank env) config.requiredDefaults.*1) as Hf.
      { rewrite <- Hperm. by left. }
      apply list_elem_of_filter in Hf as [Hblank Hin]. by exists k.
    + intros err Heq. inversion Heq. by exists (k :: missing).
Qed.


(** X22. Loading fails exactly when one of the ten variables is set to a
    value that is nothing but space; the error then names these variables,
    each once, in some order.  An unset or empty variable never makes it
    fail, nor does any value of the pool size, lifetime and timeout
    settings. *)
Theorem LoadConfig_fails_iff_blank_value (env : gmap string string) :
  ((∃ err, config.LoadConfig env = Err err) ↔
   ∃ key, key ∈ config.requiredDefaults.*1 ∧ setToBlank env key) ∧
  (∀ err, config.LoadConfig env = Err err →
     ∃ missingVars,
       err = "missing required environment variables: " +:+ config.fmt_v missingVars ∧
       missingVars ≡ₚ filter (setToBlank env) config.requiredDefaults.*1).
Proof. apply LoadConfig_outcome. Qed.

(** X23. In a loaded configuration the project, the dataset, both database
    names and the date format are the value of their variable when it is
    set and not empty, their default otherwise, and none of them is
    blank. *)
Theorem LoadConfig_fields_not_blank (env : gmap string string) cfg :
  config.LoadConfig env = Ok cfg →
  loadedFrom env (model.GCPProjectID cfg) config.GCPProjectID "finance-mis" ∧
  loadedFrom env (model.BigQueryDatasetID cfg) config.BQDatasetID
             "finance_salesforce" ∧
  loadedFrom env (model.SalesforceDBName cfg) config.SalesforceDBName
             "salesforce_db" ∧
  loadedFrom env (model.FinanceDBName cfg) config.FinanceDBName "finance_db" ∧
  loadedFrom env (model.DateFormat cfg) config.DateFormatKey
             "2006-01-02T15:04:05Z07:00".
Proof.
  intros Hload.
  assert (∀ key dflt, (key, dflt) ∈ config.requiredDefaults →
            config.TrimSpace (config.getEnv env key dflt) ≠ EmptyString) as Hnb.
  { intros key dflt Hin Hblank.
    destruct (requiredDefaults_not_blank key dflt Hin) as [_ Hd].
    destruct (getEnv_cases env key dflt) as [[_ Heq]|[Hset Heq]];
      rewrite Heq in Hblank; [done|].
    assert (key ∈ config.missingVarsOf (config.requiredVars env)) as Hmiss.
    { rewrite missingVars_Permutation. apply list_elem_of_filter.
      split; [done|]. apply list_elem_of_fmap. by exists (key, dflt). }
    revert Hload. unfold config.LoadConfig.
    destruct (config.missingVarsOf (config.requiredVars env)); [|done].
    by apply elem_of_nil in Hmiss. }
  revert Hload. unfold config.LoadConfig.
  destruct (0 <? length _); [done|]. intros Heq. inversion Heq; subst cfg; clear Heq.
  simpl. unfold loadedFrom.
  rewrite (requiredVars_total env config.GCPProjectID "finance-mis"),
    (requiredVars_total env config.BQDatasetID "finance_salesforce"),
    (requiredVars_total env config.SalesforceDBName "salesforce_db"),
    (requiredVars_total env config.FinanceDBName "finance_db"),
    (requiredVars_total env config.DateFormatKey "2006-01-02T15:04:05Z07:00")
    by compute_done.
  repeat split; try done; apply Hnb; compute_done.
Qed.



(** X26. In terms of bytes: loading fails when one of the ten variables is
    set to a non-empty run of ASCII spaces, tabs or line breaks, and
    succeeds when each of them is unset, empty, or a pure-ASCII value with
    a byte that is none of these. *)
Theorem LoadConfig_ascii_values (env : gmap string string) :
  (∀ key, key ∈ config.requiredDefaults.*1 →
     config.Getenv env key ≠ EmptyString →
     all_bytes config.asciiSpace (config.Getenv env key) = true →
     ∃ err, config.LoadConfig env = Err err) ∧
  ((∀ key, key ∈ config.requiredDefaults.*1 →
      strings.isASCII (config.Getenv env key) = true ∧
      (config.Getenv env key = EmptyString ∨
       all_bytes config.asciiSpace (config.Getenv env key) = false)) →
   ∃ cfg, config.LoadConfig env = Ok cfg).
Proof.
  destruct (LoadConfig_outcome env) as [Hiff _]. split.
  - intros key Hin Hset Hsp. apply Hiff. exists key. split; [done|].
    split; [done|]. apply TrimSpace_ascii_empty; [|done].
    rewrite isASCII_all_bytes. clear -Hsp.
    induction (config.Getenv env key) as [|c s IH]; simpl in *; [done|].
    apply andb_prop in Hsp as [Hc Hs]. rewrite (IH Hs), andb_true_r.
    revert Hc. clear. destruct c as [[] [] [] [] [] [] [] []]; by vm_compute.
  - intros Hall.
    destruct (config.LoadConfig env) as [cfg|err] eqn:Hload; [by exists cfg|].
    exfalso. destruct Hiff as [Hiff _].
    destruct (Hiff ltac:(by exists err)) as (key & Hin & Hset & Hblank).
    destruct (Hall key Hin) as [Hascii [Hempty|Hsp]]; [done|].
    apply TrimSpace_ascii_empty in Hblank; [|done]. congruence.
Qed.

End ConfigLoader.

(** * The further properties on the sample data *)

Lemma isCriticalError_substrings_witness :
  (occursIn "changed type" sampleUpdateError ∨
   occursIn "is missing" sampleUpdateError) ∧
  occursIn "invalid" sampleUpdateError.
Proof. apply (proj1 (isCriticalError_substrings sampleUpdateError)). reflexivity. Defined.

Lemma mysqlTypeToBigQueryType_ignores_suffix_witness :
  mysqlTypeToBigQueryType (libs:=sampleLibs) "geometry(point)"
  = mysqlTypeToBigQueryType (libs:=sampleLibs) "geometry".
Proof.
  apply (mysqlTypeToBigQueryType_ignores_suffix (libs:=sampleLibs)
           "geometry" "point)").
  reflexivity.
Defined.

Lemma SchemasMatch_last_field_decides_witness :
  SchemasMatch repeatedSchema
    [mkField "a" "INTEGER" true; mkField "a" "INTEGER" true] = true.
Proof.
  apply (proj2 (SchemasMatch_last_field_decides repeatedSchema
                  [mkField "a" "INTEGER" true; mkField "a" "INTEGER" true])).
  split; [reflexivity|]. intros field Hin.
  repeat (apply elem_of_cons in Hin as [->|Hin]; [reflexivity|]).
  by apply elem_of_nil in Hin.
Defined.

Lemma SchemasMatch_reads_names_and_types_witness :
  SchemasMatch sampleSchema (reverse sampleSchema)
  = SchemasMatch ((fun f => mkField (Name f) (Type_ f) (negb (Required f)))
                    <$> sampleSchema) (reverse sampleSchema).
Proof.
  apply (SchemasMatch_reads_names_and_types sampleSchema (reverse sampleSchema));
    reflexivity.
Defined.

Lemma SchemasMatch_reflexive_transitive_witness :
  SchemasMatch sampleSchema sampleSchema = true ∧
  SchemasMatch sampleSchema (drop 0 sampleSchema) = true.
Proof.
  destruct (SchemasMatch_reflexive_transitive sampleSchema (reverse sampleSchema)
              (drop 0 sampleSchema)
              ltac:(compute_done) ltac:(compute_done) ltac:(compute_done))
    as [Hrefl Htrans].
  split; [exact Hrefl|]. apply Htrans; reflexivity.
Defined.

Lemma InferSchemaFromMySQL_field_types_witness :
  ∃ rows cols,
    db_Query (sampleDB []) sampleQuery = Ok rows ∧ ColumnTypes rows = Ok cols ∧
    ∀ i field, sampleSchema !! i = Some field →
      ∃ col, cols !! i = Some col ∧
             Type_ field
             = mysqlTypeToBigQueryType (libs:=sampleLibs) (DatabaseTypeName col) ∧
             Type_ field ∈ semanticTypes.
Proof.
  apply (InferSchemaFromMySQL_field_types (libs:=sampleLibs) (sampleDB [])
           sampleQuery sampleSchema).
  reflexivity.
Defined.

Lemma InferSchemaFromMySQL_reads_metadata_only_witness :
  InferSchemaFromMySQL (libs:=sampleLibs) (sampleDB []) sampleQuery
  = InferSchemaFromMySQL (libs:=sampleLibs) (sampleDB tenRows) "SELECT 1".
Proof.
  apply (InferSchemaFromMySQL_reads_metadata_only (libs:=sampleLibs)
           (sampleDB []) sampleQuery (sampleRows [])
           (sampleDB tenRows) "SELECT 1" (sampleRows tenRows));
    reflexivity.
Defined.

Lemma InferSchemaFromMySQL_schema_well_formed_witness :
  uniqueNames sampleSchema ∧ SchemasMatch sampleSchema sampleSchema = true ∧
  SchemasMatch (reverse sampleSchema) sampleSchema = true.
Proof.
  destruct (InferSchemaFromMySQL_schema_well_formed (libs:=sampleLibs)
              (sampleDB []) sampleQuery (sampleRows []) sampleColumnTypes
              sampleSchema eq_refl eq_refl ltac:(compute_done) eq_refl)
    as (Hu & Hself & Hperm).
  split; [exact Hu|]. split; [exact Hself|].
  apply (Hperm (reverse sampleSchema)). apply reverse_Permutation.
Defined.

Lemma ToSaveable_panics_iff_short_witness : ToSaveable shortRow = None.
Proof.
  apply (proj2 (ToSaveable_panics_iff_short shortRow)). simpl. lia.
Defined.

Lemma ToSaveable_lookup_by_position_witness :
  ∃ record, ToSaveable parsedSample = Some record ∧
            size record = length (ColumnNames parsedSample) ∧
            ∀ i colName, ColumnNames parsedSample !! i = Some colName →
                         record !! colName = Values parsedSample !! i.
Proof.
  apply (ToSaveable_lookup_by_position parsedSample).
  - compute_done.
  - simpl. lia.
Defined.

Lemma ParseDynamicRow_succeeds_iff_witness :
  (∃ row, ParseDynamicRow (libs:=sampleLibs) (sampleRows []) (sampleRow 1)
            "2006-01-02" = Ok row) ∧
  ParseDynamicRow (libs:=sampleLibs) closedRows (sampleRow 1) "2006-01-02"
  = Err (Errorf "failed to get columns" "sql: Rows are closed") ∧
  ParseDynamicRow (libs:=sampleLibs) (sampleRows []) brokenRow "2006-01-02"
  = Err (Errorf "failed to scan row" "sql: Rows are closed").
Proof.
  split; [|split].
  - apply (proj1 (ParseDynamicRow_succeeds_iff (libs:=sampleLibs) (sampleRows [])
                    (sampleRow 1) "2006-01-02")).
    exists sampleColumns. by repeat split.
  - apply (ParseDynamicRow_succeeds_iff (libs:=sampleLibs) closedRows
             (sampleRow 1) "2006-01-02"). reflexivity.
  - apply (proj2 (proj2 (ParseDynamicRow_succeeds_iff (libs:=sampleLibs)
                           (sampleRows []) brokenRow "2006-01-02"))
             sampleColumns); reflexivity.
Defined.

Lemma ParseDynamicRow_values_converted_witness :
  length (Values parsedSample) = length (ColumnNames parsedSample) ∧
  Forall (fun v => jsonSafe v = true) (Values parsedSample) ∧
  ∀ dateFormat',
    (fun v => convertValueToInterface (libs:=sampleLibs) v dateFormat')
      <$> Values parsedSample = Values parsedSample.
Proof.
  apply (ParseDynamicRow_values_converted (libs:=sampleLibs) (sampleRows [])
           (sampleRow 1) "2006-01-02" parsedSample).
  reflexivity.
Defined.

Lemma createOrUpdateTable_success_not_deleted_witness :
  let run := createOrUpdateTable (sampleClient sampleUpdateError) "dataset"
               sampleTable sampleWorld in
  last (sent run.2)
  = Some (CallCreate "dataset" "accounts"
            (mkTableMetadata "accounts" sampleSchema "")).
Proof.
  intros run.
  apply (createOrUpdateTable_success_not_deleted
           (sampleClient sampleUpdateError) "dataset" sampleTable sampleWorld
           (sent run.2)).
  - reflexivity.
  - reflexivity.
  - apply list_elem_of_lookup. by exists 2.
Defined.

Lemma createOrUpdateTable_on_lookup_error_witness :
  (createOrUpdateTable (sampleClient sampleUpdateError) "dataset" sampleTable
     emptyWorld).1 = None ∧
  createOrUpdateTable deniedClient "dataset" sampleTable emptyWorld
  = (Some (Errorf "failed to get table metadata" "Error 403: Access Denied"),
     mkWorld ∅ [CallMetadata "dataset" "accounts"]).
Proof.
  split.
  - destruct (createOrUpdateTable_on_lookup_error
                (sampleClient sampleUpdateError) "dataset" sampleTable emptyWorld
                "Error 404: Not found: Table" ∅ eq_refl) as [Habsent _].
    rewrite Habsent; [reflexivity|]. by apply Contains_occurs.
  - destruct (createOrUpdateTable_on_lookup_error deniedClient "dataset"
                sampleTable emptyWorld "Error 403: Access Denied" ∅ eq_refl)
      as [_ Hother].
    apply Hother. intros Hnf%Contains_occurs. discriminate Hnf.
Defined.

Lemma createOrUpdateTable_noop_when_fields_agree_witness :
  createOrUpdateTable (sampleClient sampleUpdateError) "dataset" sampleTable
    reorderedWorld
  = (None, mkWorld (dest reorderedWorld) [CallMetadata "dataset" "accounts"]).
Proof.
  apply (createOrUpdateTable_noop_when_fields_agree
           (sampleClient sampleUpdateError) "dataset" sampleTable reorderedWorld
           (mkTableMetadata "accounts" (reverse sampleSchema) "etag")
           (dest reorderedWorld)).
  - reflexivity.
  - compute_done.
  - unfold nameTypePairs. apply fmap_Permutation, reverse_Permutation.
Defined.

Lemma executeJob_success_means_loaded_witness :
  let run := executeJob (libs:=sampleLibs) (sampleClient sampleUpdateError)
               "dataset" sampleJob (Some (sampleDB tenRows)) sampleWorld in
  sent run.2 = [] ∨
  ∃ payload bqJob d1 status,
    sent run.2 = [CallLoaderRun "dataset" "accounts" payload JSON WriteTruncate;
                  CallWait bqJob] ∧
    bq_LoaderRun (sampleClient sampleUpdateError) "dataset" "accounts" payload
      JSON WriteTruncate (dest sampleWorld) = (Ok bqJob, d1) ∧
    bq_Wait (sampleClient sampleUpdateError) bqJob d1 = (Ok status, dest run.2) ∧
    status_Err status = None.
Proof.
  intros run.
  apply (executeJob_success_means_loaded (libs:=sampleLibs)
           (sampleClient sampleUpdateError) "dataset" sampleJob
           (Some (sampleDB tenRows)) sampleWorld (sent run.2)).
  - by vm_compute.
  - by vm_compute.
Defined.

Lemma extractRows_counts_every_row_witness :
  ∃ st, extractRows (libs:=sampleLibs) sampleJob (sampleRows tenRows) tenRows
          extractionStart = LoopDone st ∧
        rowNum st = 10%Z ∧
        (totalRowsExtracted st + skippedRows st)%Z = rowNum st.
Proof.
  destruct (extractRows (libs:=sampleLibs) sampleJob (sampleRows tenRows) tenRows
              extractionStart) as [st| |] eqn:Hx; [|by vm_compute in Hx..].
  exists st. split; [reflexivity|].
  destruct (extractRows_counts_every_row (libs:=sampleLibs) sampleJob
              (sampleRows tenRows) st ltac:(by vm_compute) Hx)
    as (Hn & Hsum & _).
  split; [exact Hn | exact Hsum].
Defined.

Lemma executeJob_payload_lines_witness :
  match sent (executeJob (libs:=sampleLibs) (sampleClient sampleUpdateError)
                "dataset" sampleJob (Some (sampleDB tenRows)) sampleWorld).2 with
  | CallLoaderRun _ _ payload _ _ :: _ => payload
  | _ => EmptyString
  end
  = joinLines (bufferedLines (libs:=sampleLibs) sampleJob (sampleRows tenRows)
                 tenRows).
Proof.
  destruct (executeJob_payload_lines (libs:=sampleLibs)
              (sampleClient sampleUpdateError) "dataset" sampleJob
              (Some (sampleDB tenRows)) sampleWorld
              "dataset" "accounts"
              match sent (executeJob (libs:=sampleLibs)
                            (sampleClient sampleUpdateError) "dataset" sampleJob
                            (Some (sampleDB tenRows)) sampleWorld).2 with
              | CallLoaderRun _ _ payload _ _ :: _ => payload
              | _ => EmptyString
              end JSON WriteTruncate)
    as (d & rows & Hd & Hq & Hpayload & _).
  - apply list_elem_of_lookup. exists 0. by vm_compute.
  - inversion Hd; subst d. inversion Hq; subst rows. exact Hpayload.
Defined.

Lemma LoadConfig_fails_iff_blank_value_witness :
  ∃ err, config.LoadConfig (libs:=sampleConfigLibs) blankEnv = Err err.
Proof.
  apply (proj1 (LoadConfig_fails_iff_blank_value (libs:=sampleConfigLibs)
                  blankEnv)).
  exists "GCP_PROJECT_ID". split; [compute_done|]. split; [done | reflexivity].
Defined.

Lemma LoadConfig_fields_not_blank_witness :
  loadedFrom (libs:=sampleConfigLibs) sampleEnv "ledger" config.FinanceDBName
    "finance_db" ∧
  loadedFrom (libs:=sampleConfigLibs) sampleEnv "2006-01-02" config.DateFormatKey
    "2006-01-02T15:04:05Z07:00".
Proof.
  destruct (LoadConfig_fields_not_blank (libs:=sampleConfigLibs) sampleEnv
              sampleLoaded eq_refl) as (_ & _ & _ & Hdb & Hfmt).
  split; [exact Hdb | exact Hfmt].
Defined.



Lemma LoadConfig_ascii_values_witness :
  (∃ err, config.LoadConfig (libs:=sampleConfigLibs) blankEnv = Err err) ∧
  (∃ cfg, config.LoadConfig (libs:=sampleConfigLibs) sampleEnv = Ok cfg).
Proof.
  split.
  - apply (proj1 (LoadConfig_ascii_values (libs:=sampleConfigLibs) blankEnv)
             "GCP_PROJECT_ID"); [compute_done | done | reflexivity].
  - apply (proj2 (LoadConfig_ascii_values (libs:=sampleConfigLibs) sampleEnv)).
    intros key Hin.
    repeat (apply elem_of_cons in Hin as [->|Hin];
            [split; [reflexivity|]; first [by left | by right]|]).
    by apply elem_of_nil in Hin.
Defined.
